(** * QuestHub hub client: connection lifecycle, invocation and result decoding

    A shallow embedding of [pkg/hub] (errors.go, models.go, the client and its
    options) together with the properties of the client that follow from the
    code.  Every method of [Client] runs under the client's mutex or is a
    straight-line sequence of such sections, so a method is a state
    transformer on the client and on the part of the process it touches:
    transports, state channels, spawned goroutines and the logger. *)

From stdpp Require Import base option list strings.
From Stdlib Require Import ZArith Lia Ascii.
From Stdlib Require DecimalString DecimalZ.

#[local] Set Warnings "-register-all".
Local Open Scope string_scope.
Local Open Scope list_scope.
Local Open Scope Z_scope.

(** ** errors.go *)

(** A Go [error] value.  The eight sentinels of errors.go and the two of
    package context are told apart by identity, as [errors.Is] does; an error
    produced by a collaborator (transport, encoding/json) carries its text;
    [Errorf] is the result of [fmt.Errorf] with a single [%w] verb: the
    rendered message and the operand that [Unwrap] returns. *)
Inductive GoError : Type :=
  | ErrNotConnected
  | ErrNotInitialized
  | ErrInvalidQuestID
  | ErrInvalidTemplateID
  | ErrConnectionTimeout
  | ErrInvokeFailed
  | ErrQuestNotFound
  | ErrBundleNotFound
  | context_Canceled
  | context_DeadlineExceeded
  | Foreign (msg : string)
  | Errorf (msg : string) (wrapped : GoError).

(** The interface type [error]; [None] is [nil]. *)
Abbreviation error := (option GoError).

Definition Error (e : GoError) : string :=
  match e with
  | ErrNotConnected => "client is not connected"
  | ErrNotInitialized => "service not initialized"
  | ErrInvalidQuestID => "invalid quest ID"
  | ErrInvalidTemplateID => "invalid template ID"
  | ErrConnectionTimeout => "connection timeout"
  | ErrInvokeFailed => "hub method invocation failed"
  | ErrQuestNotFound => "quest not found"
  | ErrBundleNotFound => "bundle not found"
  | context_Canceled => "context canceled"
  | context_DeadlineExceeded => "context deadline exceeded"
  | Foreign msg => msg
  | Errorf msg _ => msg
  end.

Definition Unwrap (e : GoError) : error :=
  match e with
  | Errorf _ w => Some w
  | _ => None
  end.

Global Instance GoError_eq_dec : EqDecision GoError.
Proof. solve_decision. Defined.

(** [errors.Is err target]: walk the [Unwrap] chain looking for [target]. *)
Fixpoint errors_Is (err target : GoError) : bool :=
  if decide (err = target) then true
  else match err with
       | Errorf _ w => errors_Is w target
       | _ => false
       end.

(** [fmt.Errorf(prefix + "%w", err)]. *)
Definition Errorf_w (prefix : string) (err : GoError) : GoError :=
  Errorf (prefix +:+ Error err) err.

(** [fmt.Errorf("%w: %s - %v", sentinel, method, cause)]: only the first
    operand is wrapped, the cause is rendered into the message. *)
Definition Errorf_w_s_v (sentinel : GoError) (method : string) (cause : GoError) : GoError :=
  Errorf (Error sentinel +:+ ": " +:+ method +:+ " - " +:+ Error cause) sentinel.

(** ** Dynamic values *)

(** The values of type [interface{}] that cross the transport: method
    arguments and raw results.  A [float64] is its IEEE 754 bit pattern; a map
    is listed in ascending order of its keys (the order in which encoding/json
    writes it), each key once; [AUnsupported] stands for the dynamic types
    encoding/json refuses (channels, functions, complex numbers). *)
Inductive Any : Type :=
  | ANil
  | ABool (b : bool)
  | AInt (n : Z)
  | AFloat64 (bits : Z)
  | AString (s : string)
  | ASlice (xs : list Any)
  | AMap (kvs : list (string * Any))
  | AUnsupported (ty : string).

(** [signalr.InvokeResult]. *)
Record InvokeResult : Type := mkInvokeResult {
  Value : Any;
  Error_ : error;
}.

(** ** context.Context *)

(** A context as far as [invoke] observes it: what [Deadline] reports, and
    the instant at which the owner of the context cancels it, if ever.
    Instants and durations are integers (nanoseconds). *)
Record Context : Type := mkContext {
  ctx_deadline : option Z;
  ctx_canceledAt : option Z;
}.

Definition context_Background : Context :=
  {| ctx_deadline := None; ctx_canceledAt := None |}.

(** [context.WithDeadline]: a parent deadline that is sooner wins; cancelling
    the parent cancels the child. *)
Definition context_WithDeadline (parent : Context) (d : Z) : Context :=
  {| ctx_deadline := Some (match ctx_deadline parent with
                           | Some p => if p <? d then p else d
                           | None => d
                           end);
     ctx_canceledAt := ctx_canceledAt parent |}.

(** [context.WithTimeout parent timeout], called at instant [now]. *)
Definition context_WithTimeout (now : Z) (parent : Context) (timeout : Z) : Context :=
  context_WithDeadline parent (now + timeout).

(** The instant at which [Done()] is closed and the value [Err()] has from
    then on; [None] when the context is never done. *)
Definition ctx_done (ctx : Context) : option (Z * GoError) :=
  match ctx_deadline ctx, ctx_canceledAt ctx with
  | None, None => None
  | Some d, None => Some (d, context_DeadlineExceeded)
  | None, Some k => Some (k, context_Canceled)
  | Some d, Some k =>
      if k <? d then Some (k, context_Canceled) else Some (d, context_DeadlineExceeded)
  end.

(** ** models.go *)

(** [time.Time] as the runtime stores it: the wall and ext words and the
    location ([None] for UTC).  Only package time interprets them. *)
Record Time : Type := mkTime {
  wall : Z;
  ext : Z;
  loc : option string;
}.

(** The zero value [time.Time{}]. *)
Definition Time_zero : Time := {| wall := 0; ext := 0; loc := None |}.

(** A slice or map field is [None] when it is [nil]. *)
Record ServiceStatus : Type := mkServiceStatus {
  ServiceStatus_Initialized : bool;
  ServiceStatus_Version : string;
  ServiceStatus_Timestamp : Time;
}.

Record ReadyStatus : Type := mkReadyStatus {
  ReadyStatus_Initialized : bool;
  ReadyStatus_Version : string;
  ReadyStatus_Refreshed : bool;
}.

Record CacheResult : Type := mkCacheResult {
  CacheResult_Success : bool;
  CacheResult_Version : string;
  CacheResult_KeysCleared : Z;
  CacheResult_Patterns : option (list string);
  CacheResult_Timestamp : Time;
}.

Record BaseQuest : Type := mkBaseQuest {
  BaseQuest_Objectives : option (list (string * Any));
  BaseQuest_Rewards : option (list (string * Any));
  BaseQuest_Count : Z;
}.

Record ChallengeBundleReward : Type := mkChallengeBundleReward {
  ChallengeBundleReward_TemplateID : string;
  ChallengeBundleReward_Quantity : Z;
}.

Record ChallengeBundleObjective : Type := mkChallengeBundleObjective {
  ChallengeBundleObjective_BackendName : string;
  ChallengeBundleObjective_Count : Z;
  ChallengeBundleObjective_Stage : Z;
}.

Record ChallengeBundleOptions : Type := mkChallengeBundleOptions {
  IsBattlePass : bool;
  IsOvertime : bool;
  GrantWithPass : bool;
  ProgressOnBattlePassPurchased : bool;
  AthenaSeasonProgress : bool;
  BattlePassProgress : bool;
  GainAthenaSeasonXP : bool;
}.

Record ChallengeBundleObject : Type := mkChallengeBundleObject {
  QuestDefinition : string;
  ChallengeBundleObject_Rarity : string;
  ChallengeBundleObject_Rewards : option (list ChallengeBundleReward);
  ChallengeBundleObject_Objectives : option (list ChallengeBundleObjective);
  Options : ChallengeBundleOptions;
}.

Record BundleCompletionReward : Type := mkBundleCompletionReward {
  BundleCompletionReward_TemplateID : string;
  BundleCompletionReward_Quantity : Z;
}.

Record AthenaChallengeBundle : Type := mkAthenaChallengeBundle {
  AthenaChallengeBundle_TemplateID : string;
  AthenaChallengeBundle_ChallengeBundleSchedule : string;
  Objects : option (list ChallengeBundleObject);
  Amount : Z;
  AthenaChallengeBundle_Rarity : string;
  CompletionRewards : option (list BundleCompletionReward);
}.

Record ChallengeBundleSchedule : Type := mkChallengeBundleSchedule {
  ChallengeBundleSchedule_TemplateID : string;
  QuestBundle : string;
}.

(** ** The client and the process around it *)

(** A registered callback is known by its identity. *)
Definition Handler : Type := nat.

(** [signalr.ClientState]. *)
Inductive ClientState : Type :=
  | ClientCreated
  | ClientConnecting
  | ClientConnected
  | ClientClosed.

(** One call handed to a transport by [Invoke]. *)
Record Call : Type := mkCall {
  call_method : string;
  call_args : list Any;
}.

(** A Transport Handle: one [signalr.Client] made by [signalr.NewClient]. *)
Record Transport : Type := mkTransport {
  started : bool;            (* Start() was called *)
  stopped : bool;            (* Stop() was called *)
  lastErr : error;           (* what Err() returns *)
  invoked : list Call;       (* the calls submitted through Invoke, oldest first *)
}.

(** A state channel made by [Connect] and registered with
    [ObserveStateChanged]; the cancel function closes it. *)
Record StateChan : Type := mkStateChan {
  observes : nat;            (* the transport it is registered with *)
  closed : bool;
}.

(** A [go] statement that was executed. *)
Inductive Goroutine : Type :=
  | go_watchStates (stateCh : nat)
  | go_ready (h : Handler) (status : ReadyStatus)
  | go_disconnect (h : Handler) (err : error).

Inductive Level : Type := LDebug | LInfo | LWarn | LError.

Record LogEntry : Type := mkLogEntry {
  log_level : Level;
  log_format : string;
  log_args : list string;
}.

(** What the client reaches outside its own struct. *)
Record World : Type := mkWorld {
  httpConnections : nat;             (* connections made by NewHTTPConnection *)
  transports : list Transport;
  stateChans : list StateChan;
  goroutines : list Goroutine;       (* in the order they were started *)
  logged : list LogEntry;            (* what the logger received, oldest first *)
}.

(** The [Client] struct.  [ctx]/[cancel] are never cancelled by the package,
    [logger] writes to [logged], [mu] is the reason every method below is
    atomic. *)
Record Client : Type := mkClient {
  connection : option nat;           (* index into [transports]; None = nil *)
  url : string;
  timeout : Z;
  connected : bool;
  readyHandlers : list Handler;
  disconnectHandlers : list Handler;
  observeCancel : option nat;        (* the state channel the cancel func closes; None = nil *)
}.

Record Machine : Type := mkMachine {
  client : Client;
  world : World;
}.

Definition World_empty : World :=
  {| httpConnections := 0; transports := []; stateChans := []; goroutines := []; logged := [] |}.

(** ** Running Go code *)

(** A call returns, panics, or blocks forever. *)
Inductive Exec (A : Type) : Type :=
  | Returns (a : A) (m : Machine)
  | Panics (why : string)
  | Blocks.
Arguments Returns {A} a m.
Arguments Panics {A} why.
Arguments Blocks {A}.

Definition Go (A : Type) : Type := Machine -> Exec A.

Definition Go_ret {A} (a : A) : Go A := fun m => Returns a m.

Definition Go_bind {A B} (x : Go A) (k : A -> Go B) : Go B :=
  fun m => match x m with
           | Returns a m' => k a m'
           | Panics why => Panics why
           | Blocks => Blocks
           end.

Global Instance Go_mret : MRet Go := @Go_ret.
Global Instance Go_mbind : MBind Go := fun A B k x => Go_bind x k.

Definition panic {A} (why : string) : Go A := fun _ => Panics why.
Definition block {A} : Go A := fun _ => Blocks.
Definition getClient : Go Client := fun m => Returns (client m) m.
Definition getWorld : Go World := fun m => Returns (world m) m.
Definition putClient (c : Client) : Go unit :=
  fun m => Returns tt {| client := c; world := world m |}.
Definition putWorld (w : World) : Go unit :=
  fun m => Returns tt {| client := client m; world := w |}.

(** Field assignments. *)
Definition set_connection (v : option nat) (c : Client) : Client :=
  {| connection := v; url := url c; timeout := timeout c; connected := connected c;
     readyHandlers := readyHandlers c; disconnectHandlers := disconnectHandlers c;
     observeCancel := observeCancel c |}.
Definition set_timeout (v : Z) (c : Client) : Client :=
  {| connection := connection c; url := url c; timeout := v; connected := connected c;
     readyHandlers := readyHandlers c; disconnectHandlers := disconnectHandlers c;
     observeCancel := observeCancel c |}.
Definition set_connected (v : bool) (c : Client) : Client :=
  {| connection := connection c; url := url c; timeout := timeout c; connected := v;
     readyHandlers := readyHandlers c; disconnectHandlers := disconnectHandlers c;
     observeCancel := observeCancel c |}.
Definition set_readyHandlers (v : list Handler) (c : Client) : Client :=
  {| connection := connection c; url := url c; timeout := timeout c; connected := connected c;
     readyHandlers := v; disconnectHandlers := disconnectHandlers c;
     observeCancel := observeCancel c |}.
Definition set_disconnectHandlers (v : list Handler) (c : Client) : Client :=
  {| connection := connection c; url := url c; timeout := timeout c; connected := connected c;
     readyHandlers := readyHandlers c; disconnectHandlers := v;
     observeCancel := observeCancel c |}.
Definition set_observeCancel (v : option nat) (c : Client) : Client :=
  {| connection := connection c; url := url c; timeout := timeout c; connected := connected c;
     readyHandlers := readyHandlers c; disconnectHandlers := disconnectHandlers c;
     observeCancel := v |}.

Definition assign (f : Client -> Client) : Go unit :=
  c ← getClient; putClient (f c).

Definition set_transports (v : list Transport) (w : World) : World :=
  {| httpConnections := httpConnections w; transports := v; stateChans := stateChans w;
     goroutines := goroutines w; logged := logged w |}.
Definition set_stateChans (v : list StateChan) (w : World) : World :=
  {| httpConnections := httpConnections w; transports := transports w; stateChans := v;
     goroutines := goroutines w; logged := logged w |}.
Definition set_goroutines (v : list Goroutine) (w : World) : World :=
  {| httpConnections := httpConnections w; transports := transports w;
     stateChans := stateChans w; goroutines := v; logged := logged w |}.
Definition set_logged (v : list LogEntry) (w : World) : World :=
  {| httpConnections := httpConnections w; transports := transports w;
     stateChans := stateChans w; goroutines := goroutines w; logged := v |}.
Definition set_httpConnections (v : nat) (w : World) : World :=
  {| httpConnections := v; transports := transports w; stateChans := stateChans w;
     goroutines := goroutines w; logged := logged w |}.

Definition effect (f : World -> World) : Go unit :=
  w ← getWorld; putWorld (f w).

(** [for _, x := range xs { body }]. *)
Fixpoint range {A} (xs : list A) (body : A -> Go unit) : Go unit :=
  match xs with
  | [] => mret tt
  | x :: xs => body x;; range xs body
  end.

(** [go f(...)]. *)
Definition go (g : Goroutine) : Go unit :=
  effect (fun w => set_goroutines (goroutines w ++ [g]) w).

(** [c.logger.<Level>(format, args...)]. *)
Definition logf (lvl : Level) (format : string) (args : list string) : Go unit :=
  effect (fun w => set_logged (logged w ++ [mkLogEntry lvl format args]) w).

(** ** Options and construction *)

(** The options a caller can build (the fields of [Client] are unexported).
    [WithLogger] replaces the sink behind [logged]. *)
Inductive ClientOption : Type :=
  | WithTimeout (timeout : Z)
  | WithLogger.

(** Calling the option on the client. *)
Definition ClientOption_apply (opt : ClientOption) (c : Client) : Client :=
  match opt with
  | WithTimeout t => set_timeout t c
  | WithLogger => c
  end.

Definition time_Second : Z := 1000000000.

Definition NewClient (url_ : string) (opts : list ClientOption) : Client :=
  let c := {| connection := None; url := url_; timeout := 30 * time_Second;
              connected := false; readyHandlers := []; disconnectHandlers := [];
              observeCancel := None |} in
  foldl (fun c opt => ClientOption_apply opt c) c opts.

(** ** The transport as the client uses it *)

Definition Transport_new : Transport :=
  {| started := false; stopped := false; lastErr := None; invoked := [] |}.

Definition Transport_Start (t : Transport) : Transport :=
  {| started := true; stopped := stopped t; lastErr := lastErr t; invoked := invoked t |}.

Definition Transport_Stop (t : Transport) : Transport :=
  {| started := started t; stopped := true; lastErr := lastErr t; invoked := invoked t |}.

Definition Transport_Invoke (method : string) (args : list Any) (t : Transport) : Transport :=
  {| started := started t; stopped := stopped t; lastErr := lastErr t;
     invoked := invoked t ++ [mkCall method args] |}.

Definition StateChan_close (ch : StateChan) : StateChan :=
  {| observes := observes ch; closed := true |}.

Definition nil_dereference : string :=
  "invalid memory address or nil pointer dereference".

(** A method call on the [connection] field, which panics while the field is
    nil. *)
Definition on_connection {A} (k : nat -> Go A) : Go A :=
  c ← getClient;
  match connection c with
  | None => panic nil_dereference
  | Some h => k h
  end.

Definition update_transport (f : Transport -> Transport) (h : nat) : Go unit :=
  effect (fun w => set_transports (alter f h (transports w)) w).

(** [signalr.NewClient] succeeded: a new transport exists. *)
Definition signalr_NewClient : Go nat :=
  w ← getWorld;
  putWorld (set_transports (transports w ++ [Transport_new]) w);;
  mret (length (transports w)).

(** [stateCh := make(chan ...)] followed by [ObserveStateChanged(stateCh)]. *)
Definition ObserveStateChanged (h : nat) : Go nat :=
  w ← getWorld;
  putWorld (set_stateChans (stateChans w ++ [mkStateChan h false]) w);;
  mret (length (stateChans w)).

(** What the two constructors called by [Connect] answer. *)
Record ConnectEnv : Type := mkConnectEnv {
  NewHTTPConnection_err : error;
  NewClient_err : error;
}.

(** ** Client.Connect *)

Definition Connect (env : ConnectEnv) : Go error :=
  c ← getClient;
  if connected c then mret None
  else
    match NewHTTPConnection_err env with
    | Some err =>
        logf LError "Failed to create SignalR connection: %v" [Error err];;
        mret (Some (Errorf_w "failed to create connection: " err))
    | None =>
        effect (fun w => set_httpConnections (S (httpConnections w)) w);;
        match NewClient_err env with
        | Some err =>
            logf LError "Failed to create SignalR client: %v" [Error err];;
            mret (Some (Errorf_w "failed to create client: " err))
        | None =>
            h ← signalr_NewClient;
            assign (set_connection (Some h));;
            stateCh ← on_connection ObserveStateChanged;
            assign (set_observeCancel (Some stateCh));;
            go (go_watchStates stateCh);;
            on_connection (update_transport Transport_Start);;
            logf LInfo "Connecting to Hub at %s" [url c];;
            mret None
        end
    end.

(** ** Client.watchStates *)

(** First locked section of the [ClientClosed] case. *)
Definition watchStates_closed_mark : Go unit :=
  assign (set_connected false).

(** The rest of the [ClientClosed] case: pick the error, log, copy the
    handler list under the read lock and start one goroutine per entry. *)
Definition watchStates_closed_notify : Go unit :=
  err ← on_connection (fun h => w ← getWorld;
                                mret (t ← transports w !! h; lastErr t));
  let err := match err with None => Some ErrNotConnected | Some _ => err end in
  logf LInfo "Disconnected from Hub: %v" [from_option Error "<nil>" err];;
  c ← getClient;
  let handlers := [] ++ disconnectHandlers c in
  range handlers (fun h => go (go_disconnect h err)).

(** The body of the loop for one state received from the channel. *)
Definition watchStates_body (state : ClientState) : Go unit :=
  match state with
  | ClientConnected =>
      assign (set_connected true);;
      logf LInfo "Connected to Hub" []
  | ClientClosed =>
      watchStates_closed_mark;;
      watchStates_closed_notify
  | _ => mret tt
  end.

(** [for state := range stateCh], for the states the channel delivers before
    it is closed. *)
Definition watchStates (states : list ClientState) : Go unit :=
  range states watchStates_body.

(** ** Client.Disconnect, IsConnected, OnReady, OnDisconnect *)

Definition Disconnect : Go error :=
  c ← getClient;
  match connection c with
  | None =>
      assign (set_connected false);;
      mret None
  | Some h =>
      match observeCancel c with
      | Some stateCh =>
          effect (fun w => set_stateChans (alter StateChan_close stateCh (stateChans w)) w);;
          assign (set_observeCancel None)
      | None => mret tt
      end;;
      update_transport Transport_Stop h;;
      assign (set_connected false);;
      logf LInfo "Disconnected from Hub" [];;
      mret None
  end.

Definition IsConnected : Go bool :=
  c ← getClient; mret (connected c).

Definition OnReady (handler : Handler) : Go unit :=
  assign (fun c => set_readyHandlers (readyHandlers c ++ [handler]) c).

Definition OnDisconnect (handler : Handler) : Go unit :=
  assign (fun c => set_disconnectHandlers (disconnectHandlers c ++ [handler]) c).

(** ** hubReceiver.Ready *)

Definition Ready (status : ReadyStatus) : Go unit :=
  logf LInfo "Service ready - Version: %s, Initialized: %v"
       [ReadyStatus_Version status;
        if ReadyStatus_Initialized status then "true" else "false"];;
  c ← getClient;
  let handlers := [] ++ readyHandlers c in
  range handlers (fun h => go (go_ready h status)).

(** ** Client.invoke *)

(** [ctx.Deadline()]; a method call on a nil interface panics. *)
Definition Context_Deadline (ctx : option Context) : Go (option Z) :=
  match ctx with
  | None => panic nil_dereference
  | Some ctx => mret (ctx_deadline ctx)
  end.

(** [context.WithTimeout(ctx, timeout)] at instant [now]; a nil parent
    panics. *)
Definition Context_WithTimeout (now : Z) (ctx : option Context) (timeout : Z)
  : Go (option Context) :=
  match ctx with
  | None => panic "cannot create context from nil parent"
  | Some ctx => mret (Some (context_WithTimeout now ctx timeout))
  end.

(** What happens around one call of [invoke]: the instant of the call, the
    instant and content of the transport's answer on the result channel (if it
    ever answers), and the choice the runtime makes when both cases of the
    [select] are ready at once. *)
Record InvokeEnv : Type := mkInvokeEnv {
  now : Z;
  reply : option (Z * InvokeResult);
  coin : bool;
}.

Inductive Selected : Type :=
  | recv (res : InvokeResult)
  | done (err : GoError).

(** The [select] over the result channel and [ctx.Done()], entered at
    [now]: the case that becomes ready first runs, a case that was ready
    before [now] counts as ready at [now], and [None] means neither ever
    does. *)
Definition select (env : InvokeEnv) (ctx : Context) : option Selected :=
  match reply env, ctx_done ctx with
  | None, None => None
  | Some (_, res), None => Some (recv res)
  | None, Some (_, err) => Some (done err)
  | Some (r, res), Some (d, err) =>
      let r := Z.max (now env) r in
      let d := Z.max (now env) d in
      if r <? d then Some (recv res)
      else if d <? r then Some (done err)
      else Some (if coin env then recv res else done err)
  end.

(** Lines [if ctx == nil] to the end of the deadline block: the context the
    call waits on. *)
Definition invoke_context (env : InvokeEnv) (ctx : option Context) : Go (option Context) :=
  let ctx := match ctx with None => Some context_Background | Some _ => ctx end in
  deadline ← Context_Deadline ctx;
  match deadline with
  | None => c ← getClient; Context_WithTimeout (now env) ctx (timeout c)
  | Some _ => mret ctx
  end.

(** The [select] statement and what each of its cases returns. *)
Definition invoke_wait (env : InvokeEnv) (ctx : option Context) (method : string)
  : Go (Any * error) :=
  match ctx with
  | None => panic nil_dereference
  | Some ctx =>
      match select env ctx with
      | None => block
      | Some (recv res) =>
          match Error_ res with
          | Some cause =>
              logf LError "Method %s failed: %v" [method; Error cause];;
              mret (ANil, Some (Errorf_w_s_v ErrInvokeFailed method cause))
          | None => mret (Value res, None)
          end
      | Some (done err) =>
          mret (ANil, Some (Errorf_w_s_v ErrConnectionTimeout method err))
      end
  end.

Definition invoke (env : InvokeEnv) (ctx : option Context) (method : string)
    (args : list Any) : Go (Any * error) :=
  isConnected ← IsConnected;
  if negb isConnected then mret (ANil, Some ErrNotConnected)
  else
    ctx ← invoke_context env ctx;
    on_connection (update_transport (Transport_Invoke method args));;
    invoke_wait env ctx method.

(** ** encoding/json as [unmarshalResult] uses it *)

(** A library call that returns [(T, error)]. *)
Inductive Result (A : Type) : Type :=
  | Ok (a : A)
  | Err (e : GoError).
Arguments Ok {A} a.
Arguments Err {A} e.

Global Instance Result_mret : MRet Result := @Ok.
Global Instance Result_mbind : MBind Result := fun A B k x =>
  match x with
  | Ok a => k a
  | Err e => Err e
  end.
Global Instance Result_fmap : FMap Result := fun A B f x =>
  match x with
  | Ok a => Ok (f a)
  | Err e => Err e
  end.

(** The canonical interchange form: a JSON document as the value it denotes.
    A number keeps its literal, a string and an object key their content
    after unescaping; an object keeps the order of its members. *)
Inductive JSON : Type :=
  | JNull
  | JBool (b : bool)
  | JNumber (lit : string)
  | JString (s : string)
  | JArray (xs : list JSON)
  | JObject (members : list (string * JSON)).

(** *** Strings: coercion to valid UTF-8 *)

Definition byte (a : ascii) : Z := Z.of_N (N_of_ascii a).

Definition between (lo hi : Z) (a : ascii) : bool :=
  (lo <=? byte a) && (byte a <=? hi).

(** The first-byte table of package utf8: the length of the encoding and the
    range accepted for the second byte; [None] for a byte that starts no
    encoding. *)
Definition utf8_first (a : ascii) : option (nat * Z * Z) :=
  let b := byte a in
  if b <? 0x80 then Some (1%nat, 0, 0)
  else if b <? 0xC2 then None
  else if b <? 0xE0 then Some (2%nat, 0x80, 0xBF)
  else if b =? 0xE0 then Some (3%nat, 0xA0, 0xBF)
  else if b <? 0xED then Some (3%nat, 0x80, 0xBF)
  else if b =? 0xED then Some (3%nat, 0x80, 0x9F)
  else if b <? 0xF0 then Some (3%nat, 0x80, 0xBF)
  else if b =? 0xF0 then Some (4%nat, 0x90, 0xBF)
  else if b <? 0xF4 then Some (4%nat, 0x80, 0xBF)
  else if b =? 0xF4 then Some (4%nat, 0x80, 0x8F)
  else None.

(** The number of bytes of the well-formed encoding at the head of [s], or
    [0] where [utf8.DecodeRuneInString] answers [(RuneError, 1)]. *)
Definition rune_width (s : string) : nat :=
  match s with
  | EmptyString => 0
  | String b0 s1 =>
      match utf8_first b0 with
      | None => 0
      | Some (1%nat, _, _) => 1
      | Some (n, lo, hi) =>
          match s1 with
          | String b1 s2 =>
              if negb (between lo hi b1) then 0%nat
              else if (n =? 2)%nat then 2%nat
              else match s2 with
                   | String b2 s3 =>
                       if negb (between 0x80 0xBF b2) then 0%nat
                       else if (n =? 3)%nat then 3%nat
                       else match s3 with
                            | String b3 _ => if between 0x80 0xBF b3 then 4%nat else 0%nat
                            | EmptyString => 0%nat
                            end
                   | EmptyString => 0%nat
                   end
          | EmptyString => 0%nat
          end
      end
  end.

(** U+FFFD in UTF-8. *)
Definition replacement : string :=
  String (ascii_of_nat 239) (String (ascii_of_nat 191) (String (ascii_of_nat 189) EmptyString)).

(** [utf8.ValidString] and the content of the JSON string that [Marshal]
    writes for a Go string (every byte that is not part of a well-formed
    encoding becomes U+FFFD), both by walking the string one encoding at a
    time; [skip] counts the bytes of the current encoding still to copy. *)
Fixpoint ValidString_from (skip : nat) (s : string) : bool :=
  match skip, s with
  | S k, String _ s' => ValidString_from k s'
  | S _, EmptyString => false
  | O, EmptyString => true
  | O, String _ s' =>
      match rune_width s with
      | O => false
      | S k => ValidString_from k s'
      end
  end.

Definition utf8_ValidString (s : string) : bool := ValidString_from 0 s.

Fixpoint toValidUTF8_from (skip : nat) (s : string) : string :=
  match skip, s with
  | S k, String b s' => String b (toValidUTF8_from k s')
  | S _, EmptyString => EmptyString
  | O, EmptyString => EmptyString
  | O, String b s' =>
      match rune_width s with
      | O => replacement +:+ toValidUTF8_from 0 s'
      | S k => String b (toValidUTF8_from k s')
      end
  end.

Definition toValidUTF8 (s : string) : string := toValidUTF8_from 0 s.

(** *** Numbers *)

(** The Go type [int] on the platforms the client targets: 64 bits. *)
Definition is_int (n : Z) : bool := (- 2 ^ 63 <=? n) && (n <? 2 ^ 63).

(** [strconv.AppendInt(n, 10)]. *)
Definition FormatInt (n : Z) : string :=
  DecimalString.NilZero.string_of_int (Z.to_int n).

(** [strconv.ParseInt(lit, 10, 64)] on a JSON number literal. *)
Definition ParseInt (lit : string) : option Z :=
  match DecimalString.NilZero.int_of_string lit with
  | Some d => if is_int (Z.of_int d) then Some (Z.of_int d) else None
  | None => None
  end.

(** The conversions [encoding/json] takes from packages strconv and time.
    [FormatFloat] is the literal written for the float64 with the given bits
    ([None] for NaN and the infinities, which [Marshal] refuses);
    [ParseFloat] is the float64 read from a literal ([None] when it is out of
    range); [Time_MarshalJSON] is the text between the quotes ([None] when
    the time has no RFC 3339 form) and [Time_UnmarshalJSON] reads such a
    text. *)
Class Library : Type := mkLibrary {
  FormatFloat : Z -> option string;
  ParseFloat : string -> option Z;
  Time_MarshalJSON : Time -> option string;
  Time_UnmarshalJSON : string -> option Time;
}.

(** *** Errors of the library (the texts leave out the Go type involved) *)

Definition UnsupportedTypeError (ty : string) : GoError :=
  Foreign ("json: unsupported type: " +:+ ty).
Definition UnsupportedValueError : GoError :=
  Foreign "json: unsupported value".
Definition MarshalerError : GoError :=
  Foreign "json: error calling MarshalJSON for type time.Time".

Definition JSON_kind (j : JSON) : string :=
  match j with
  | JNull => "null"
  | JBool _ => "bool"
  | JNumber lit => "number " +:+ lit
  | JString _ => "string"
  | JArray _ => "array"
  | JObject _ => "object"
  end.

Definition UnmarshalTypeError (j : JSON) (ty : string) : GoError :=
  Foreign ("json: cannot unmarshal " +:+ JSON_kind j +:+ " into Go value of type " +:+ ty).

(** *** Go maps with string keys, listed in key order *)

Fixpoint map_insert {V} (k : string) (v : V) (m : list (string * V)) : list (string * V) :=
  match m with
  | [] => [(k, v)]
  | (k', v') :: m' =>
      match String.compare k k' with
      | Lt => (k, v) :: (k', v') :: m'
      | Eq => (k, v) :: m'
      | Gt => (k', v') :: map_insert k v m'
      end
  end.

(** Ascending, no key twice. *)
Fixpoint keys_ascending {V} (m : list (string * V)) : bool :=
  match m with
  | [] => true
  | (k, _) :: m' => forallb (fun kv => String.ltb k kv.1) m' && keys_ascending m'
  end.

Definition Result_foldl {A B} (f : B -> A -> Result B) : B -> list A -> Result B :=
  fix go b l :=
    match l with
    | [] => Ok b
    | x :: l => b' ← f b x; go b' l
    end.

(** How a Go type is written to and read from JSON: its zero value,
    [Marshal] of a value, and [Unmarshal] of a document into a variable that
    currently holds the given value. *)
Record JSONType (T : Type) : Type := mkJSONType {
  zero : T;
  marshal : T -> Result JSON;
  unmarshal : JSON -> T -> Result T;
}.
Arguments zero {T} _.
Arguments marshal {T} _ _.
Arguments unmarshal {T} _ _ _.

Definition json_bool : JSONType bool :=
  {| zero := false;
     marshal b := Ok (JBool b);
     unmarshal j old :=
       match j with
       | JNull => Ok old
       | JBool b => Ok b
       | _ => Err (UnmarshalTypeError j "bool")
       end |}.

Definition json_string : JSONType string :=
  {| zero := "";
     marshal s := Ok (JString (toValidUTF8 s));
     unmarshal j old :=
       match j with
       | JNull => Ok old
       | JString s => Ok s
       | _ => Err (UnmarshalTypeError j "string")
       end |}.

Definition json_int : JSONType Z :=
  {| zero := 0;
     marshal n := Ok (JNumber (FormatInt n));
     unmarshal j old :=
       match j with
       | JNull => Ok old
       | JNumber lit =>
           match ParseInt lit with
           | Some n => Ok n
           | None => Err (UnmarshalTypeError j "int")
           end
       | _ => Err (UnmarshalTypeError j "int")
       end |}.

(** Elements of a JSON array decoded over the elements of the slice the
    variable held, and over zero values past its length. *)
Definition unmarshal_elements {T} (elem : JSONType T) : list JSON -> list T -> Result (list T) :=
  fix go xs old :=
    match xs with
    | [] => Ok []
    | x :: xs =>
        y ← unmarshal elem x (hd (zero elem) old);
        ys ← go xs (tl old);
        mret (y :: ys)
    end.

(** [[]T]: nil is written as null, null is read as nil. *)
Definition json_slice {T} (elem : JSONType T) : JSONType (option (list T)) :=
  {| zero := None;
     marshal s :=
       match s with
       | None => Ok JNull
       | Some xs => JArray <$> mapM (marshal elem) xs
       end;
     unmarshal j old :=
       match j with
       | JNull => Ok None
       | JArray xs => Some <$> unmarshal_elements elem xs (default [] old)
       | _ => Err (UnmarshalTypeError j "slice")
       end |}.

(** [map[string]T]: members are written in key order; every member is read
    into a fresh element and stored in the map the variable held. *)
Definition json_map {T} (elem : JSONType T) : JSONType (option (list (string * T))) :=
  {| zero := None;
     marshal m :=
       match m with
       | None => Ok JNull
       | Some kvs =>
           JObject <$> mapM (fun kv => j ← marshal elem kv.2; mret (toValidUTF8 kv.1, j)) kvs
       end;
     unmarshal j old :=
       match j with
       | JNull => Ok None
       | JObject members =>
           Some <$> Result_foldl
             (fun m kj => v ← unmarshal elem kj.2 (zero elem); mret (map_insert kj.1 v m))
             (default [] old) members
       | _ => Err (UnmarshalTypeError j "map")
       end |}.

Section Codecs.
Context {lib : Library}.

(** [time.Time] implements [json.Marshaler] and [json.Unmarshaler]. *)
Definition json_Time : JSONType Time :=
  {| zero := Time_zero;
     marshal t :=
       match Time_MarshalJSON t with
       | Some text => Ok (JString text)
       | None => Err MarshalerError
       end;
     unmarshal j old :=
       match j with
       | JNull => Ok old
       | JString text =>
           match Time_UnmarshalJSON text with
           | Some t => Ok t
           | None => Err (Foreign "parsing time")
           end
       | _ => Err (Foreign "Time.UnmarshalJSON: input is not a JSON string")
       end |}.

(** [Marshal] of an [interface{}] goes by the dynamic type. *)
Fixpoint marshal_Any (v : Any) : Result JSON :=
  match v with
  | ANil => Ok JNull
  | ABool b => Ok (JBool b)
  | AInt n => Ok (JNumber (FormatInt n))
  | AFloat64 bits =>
      match FormatFloat bits with
      | Some lit => Ok (JNumber lit)
      | None => Err UnsupportedValueError
      end
  | AString s => Ok (JString (toValidUTF8 s))
  | ASlice xs => JArray <$> mapM marshal_Any xs
  | AMap kvs =>
      JObject <$> mapM (fun kv => j ← marshal_Any kv.2; mret (toValidUTF8 kv.1, j)) kvs
  | AUnsupported ty => Err (UnsupportedTypeError ty)
  end.

(** [Unmarshal] into an [interface{}]: bool, float64, string,
    [[]interface{}], [map[string]interface{}] or nil. *)
Fixpoint unmarshal_Any (j : JSON) : Result Any :=
  match j with
  | JNull => Ok ANil
  | JBool b => Ok (ABool b)
  | JNumber lit =>
      match ParseFloat lit with
      | Some bits => Ok (AFloat64 bits)
      | None => Err (UnmarshalTypeError j "float64")
      end
  | JString s => Ok (AString s)
  | JArray xs => ASlice <$> mapM unmarshal_Any xs
  | JObject members =>
      AMap <$> Result_foldl
        (fun m kj => v ← unmarshal_Any kj.2; mret (map_insert kj.1 v m)) [] members
  end.

Definition json_Any : JSONType Any :=
  {| zero := ANil; marshal := marshal_Any; unmarshal j _ := unmarshal_Any j |}.

End Codecs.

(** *** Structs *)

Definition upper (a : ascii) : ascii :=
  if between 97 122 a then ascii_of_N (N_of_ascii a - 32) else a.

(** [foldName]: the key under which a member name is looked up when no field
    has exactly that name.  ASCII letters go to upper case; U+017F and U+212A,
    the two other characters whose case folding is an ASCII letter, go to S
    and K; any other character stays outside ASCII, where no field name of
    this package lives. *)
Fixpoint foldName (s : string) : string :=
  match s with
  | EmptyString => EmptyString
  | String a s1 =>
      if byte a <? 0x80 then String (upper a) (foldName s1)
      else
        match s1 with
        | String b s2 =>
            if (byte a =? 0xC5) && (byte b =? 0xBF) then String "S" (foldName s2)
            else
              match s2 with
              | String c s3 =>
                  if (byte a =? 0xE2) && (byte b =? 0x84) && (byte c =? 0xAA)
                  then String "K" (foldName s3)
                  else String a (foldName s1)
              | EmptyString => String a (foldName s1)
              end
        | EmptyString => String a EmptyString
        end
  end.

(** A field of a struct type [T]: its JSON name and how a document is read
    into it. *)
Definition Field (T : Type) : Type := (string * (JSON -> T -> Result T))%type.

Definition field {T F} (name : string) (get : T -> F) (set : F -> T -> T)
    (ty : JSONType F) : Field T :=
  (name, fun j v => x ← unmarshal ty j (get v); mret (set x v)).

Definition find_field {T} (fields : list (Field T)) (key : string) : option (Field T) :=
  match List.find (fun f => String.eqb f.1 key) fields with
  | Some f => Some f
  | None => List.find (fun f => String.eqb (foldName f.1) (foldName key)) fields
  end.

(** Members are read in document order, each into the field it names;
    members that name no field are skipped. *)
Definition unmarshal_struct {T} (ty : string) (fields : list (Field T))
    (j : JSON) (old : T) : Result T :=
  match j with
  | JNull => Ok old
  | JObject members =>
      Result_foldl
        (fun v kj => match find_field fields kj.1 with
                     | Some f => f.2 kj.2 v
                     | None => Ok v
                     end)
        old members
  | _ => Err (UnmarshalTypeError j ty)
  end.

Definition member {F} (name : string) (ty : JSONType F) (x : F)
  : Result (list (string * JSON)) :=
  j ← marshal ty x; mret [(name, j)].

(** A field tagged [omitempty] is left out when [empty] holds of it. *)
Definition member_omitempty {F} (name : string) (ty : JSONType F) (empty : F -> bool)
    (x : F) : Result (list (string * JSON)) :=
  if empty x then Ok [] else member name ty x.

Definition marshal_struct (members : list (Result (list (string * JSON)))) : Result JSON :=
  JObject <$> (@List.concat _ <$> mapM id members).

Section Payloads.
Context {lib : Library}.

Definition set_ChallengeBundleSchedule_TemplateID x (v : ChallengeBundleSchedule) : ChallengeBundleSchedule :=
  {| ChallengeBundleSchedule_TemplateID := x; QuestBundle := QuestBundle v |}.

Definition set_QuestBundle x (v : ChallengeBundleSchedule) : ChallengeBundleSchedule :=
  {| ChallengeBundleSchedule_TemplateID := ChallengeBundleSchedule_TemplateID v; QuestBundle := x |}.

Definition json_ChallengeBundleSchedule : JSONType ChallengeBundleSchedule :=
  {| zero := {| ChallengeBundleSchedule_TemplateID := ""; QuestBundle := "" |};
     marshal v := marshal_struct
       [ member "templateId" json_string (ChallengeBundleSchedule_TemplateID v);
         member "questBundle" json_string (QuestBundle v) ];
     unmarshal := unmarshal_struct "ChallengeBundleSchedule"
       [ field "templateId" ChallengeBundleSchedule_TemplateID set_ChallengeBundleSchedule_TemplateID json_string;
         field "questBundle" QuestBundle set_QuestBundle json_string ] |}.

Definition set_BundleCompletionReward_TemplateID x (v : BundleCompletionReward) : BundleCompletionReward :=
  {| BundleCompletionReward_TemplateID := x; BundleCompletionReward_Quantity := BundleCompletionReward_Quantity v |}.

Definition set_BundleCompletionReward_Quantity x (v : BundleCompletionReward) : BundleCompletionReward :=
  {| BundleCompletionReward_TemplateID := BundleCompletionReward_TemplateID v; BundleCompletionReward_Quantity := x |}.

Definition json_BundleCompletionReward : JSONType BundleCompletionReward :=
  {| zero := {| BundleCompletionReward_TemplateID := ""; BundleCompletionReward_Quantity := 0 |};
     marshal v := marshal_struct
       [ member "templateId" json_string (BundleCompletionReward_TemplateID v);
         member "quantity" json_int (BundleCompletionReward_Quantity v) ];
     unmarshal := unmarshal_struct "BundleCompletionReward"
       [ field "templateId" BundleCompletionReward_TemplateID set_BundleCompletionReward_TemplateID json_string;
         field "quantity" BundleCompletionReward_Quantity set_BundleCompletionReward_Quantity json_int ] |}.

Definition set_IsBattlePass x (v : ChallengeBundleOptions) : ChallengeBundleOptions :=
  {| IsBattlePass := x; IsOvertime := IsOvertime v; GrantWithPass := GrantWithPass v; ProgressOnBattlePassPurchased := ProgressOnBattlePassPurchased v; AthenaSeasonProgress := AthenaSeasonProgress v; BattlePassProgress := BattlePassProgress v; GainAthenaSeasonXP := GainAthenaSeasonXP v |}.

Definition set_IsOvertime x (v : ChallengeBundleOptions) : ChallengeBundleOptions :=
  {| IsBattlePass := IsBattlePass v; IsOvertime := x; GrantWithPass := GrantWithPass v; ProgressOnBattlePassPurchased := ProgressOnBattlePassPurchased v; AthenaSeasonProgress := AthenaSeasonProgress v; BattlePassProgress := BattlePassProgress v; GainAthenaSeasonXP := GainAthenaSeasonXP v |}.

Definition set_GrantWithPass x (v : ChallengeBundleOptions) : ChallengeBundleOptions :=
  {| IsBattlePass := IsBattlePass v; IsOvertime := IsOvertime v; GrantWithPass := x; ProgressOnBattlePassPurchased := ProgressOnBattlePassPurchased v; AthenaSeasonProgress := AthenaSeasonProgress v; BattlePassProgress := BattlePassProgress v; GainAthenaSeasonXP := GainAthenaSeasonXP v |}.

Definition set_ProgressOnBattlePassPurchased x (v : ChallengeBundleOptions) : ChallengeBundleOptions :=
  {| IsBattlePass := IsBattlePass v; IsOvertime := IsOvertime v; GrantWithPass := GrantWithPass v; ProgressOnBattlePassPurchased := x; AthenaSeasonProgress := AthenaSeasonProgress v; BattlePassProgress := BattlePassProgress v; GainAthenaSeasonXP := GainAthenaSeasonXP v |}.

Definition set_AthenaSeasonProgress x (v : ChallengeBundleOptions) : ChallengeBundleOptions :=
  {| IsBattlePass := IsBattlePass v; IsOvertime := IsOvertime v; GrantWithPass := GrantWithPass v; ProgressOnBattlePassPurchased := ProgressOnBattlePassPurchased v; AthenaSeasonProgress := x; BattlePassProgress := BattlePassProgress v; GainAthenaSeasonXP := GainAthenaSeasonXP v |}.

Definition set_BattlePassProgress x (v : ChallengeBundleOptions) : ChallengeBundleOptions :=
  {| IsBattlePass := IsBattlePass v; IsOvertime := IsOvertime v; GrantWithPass := GrantWithPass v; ProgressOnBattlePassPurchased := ProgressOnBattlePassPurchased v; AthenaSeasonProgress := AthenaSeasonProgress v; BattlePassProgress := x; GainAthenaSeasonXP := GainAthenaSeasonXP v |}.

Definition set_GainAthenaSeasonXP x (v : ChallengeBundleOptions) : ChallengeBundleOptions :=
  {| IsBattlePass := IsBattlePass v; IsOvertime := IsOvertime v; GrantWithPass := GrantWithPass v; ProgressOnBattlePassPurchased := ProgressOnBattlePassPurchased v; AthenaSeasonProgress := AthenaSeasonProgress v; BattlePassProgress := BattlePassProgress v; GainAthenaSeasonXP := x |}.

Definition json_ChallengeBundleOptions : JSONType ChallengeBundleOptions :=
  {| zero := {| IsBattlePass := false; IsOvertime := false; GrantWithPass := false; ProgressOnBattlePassPurchased := false; AthenaSeasonProgress := false; BattlePassProgress := false; GainAthenaSeasonXP := false |};
     marshal v := marshal_struct
       [ member "isBattlePass" json_bool (IsBattlePass v);
         member "isOvertime" json_bool (IsOvertime v);
         member "grantWithPass" json_bool (GrantWithPass v);
         member "progressOnBattlePassPurchased" json_bool (ProgressOnBattlePassPurchased v);
         member "athenaSeasonProgress" json_bool (AthenaSeasonProgress v);
         member "battlePassProgress" json_bool (BattlePassProgress v);
         member "gainAthenaSeasonXP" json_bool (GainAthenaSeasonXP v) ];
     unmarshal := unmarshal_struct "ChallengeBundleOptions"
       [ field "isBattlePass" IsBattlePass set_IsBattlePass json_bool;
         field "isOvertime" IsOvertime set_IsOvertime json_bool;
         field "grantWithPass" GrantWithPass set_GrantWithPass json_bool;
         field "progressOnBattlePassPurchased" ProgressOnBattlePassPurchased set_ProgressOnBattlePassPurchased json_bool;
         field "athenaSeasonProgress" AthenaSeasonProgress set_AthenaSeasonProgress json_bool;
         field "battlePassProgress" BattlePassProgress set_BattlePassProgress json_bool;
         field "gainAthenaSeasonXP" GainAthenaSeasonXP set_GainAthenaSeasonXP json_bool ] |}.

Definition set_ChallengeBundleObjective_BackendName x (v : ChallengeBundleObjective) : ChallengeBundleObjective :=
  {| ChallengeBundleObjective_BackendName := x; ChallengeBundleObjective_Count := ChallengeBundleObjective_Count v; ChallengeBundleObjective_Stage := ChallengeBundleObjective_Stage v |}.

Definition set_ChallengeBundleObjective_Count x (v : ChallengeBundleObjective) : ChallengeBundleObjective :=
  {| ChallengeBundleObjective_BackendName := ChallengeBundleObjective_BackendName v; ChallengeBundleObjective_Count := x; ChallengeBundleObjective_Stage := ChallengeBundleObjective_Stage v |}.

Definition set_ChallengeBundleObjective_Stage x (v : ChallengeBundleObjective) : ChallengeBundleObjective :=
  {| ChallengeBundleObjective_BackendName := ChallengeBundleObjective_BackendName v; ChallengeBundleObjective_Count := ChallengeBundleObjective_Count v; ChallengeBundleObjective_Stage := x |}.

Definition json_ChallengeBundleObjective : JSONType ChallengeBundleObjective :=
  {| zero := {| ChallengeBundleObjective_BackendName := ""; ChallengeBundleObjective_Count := 0; ChallengeBundleObjective_Stage := 0 |};
     marshal v := marshal_struct
       [ member "backendName" json_string (ChallengeBundleObjective_BackendName v);
         member "count" json_int (ChallengeBundleObjective_Count v);
         member_omitempty "stage" json_int (fun x => x =? 0) (ChallengeBundleObjective_Stage v) ];
     unmarshal := unmarshal_struct "ChallengeBundleObjective"
       [ field "backendName" ChallengeBundleObjective_BackendName set_ChallengeBundleObjective_BackendName json_string;
         field "count" ChallengeBundleObjective_Count set_ChallengeBundleObjective_Count json_int;
         field "stage" ChallengeBundleObjective_Stage set_ChallengeBundleObjective_Stage json_int ] |}.

Definition set_ChallengeBundleReward_TemplateID x (v : ChallengeBundleReward) : ChallengeBundleReward :=
  {| ChallengeBundleReward_TemplateID := x; ChallengeBundleReward_Quantity := ChallengeBundleReward_Quantity v |}.

Definition set_ChallengeBundleReward_Quantity x (v : ChallengeBundleReward) : ChallengeBundleReward :=
  {| ChallengeBundleReward_TemplateID := ChallengeBundleReward_TemplateID v; ChallengeBundleReward_Quantity := x |}.

Definition json_ChallengeBundleReward : JSONType ChallengeBundleReward :=
  {| zero := {| ChallengeBundleReward_TemplateID := ""; ChallengeBundleReward_Quantity := 0 |};
     marshal v := marshal_struct
       [ member "templateId" json_string (ChallengeBundleReward_TemplateID v);
         member "quantity" json_int (ChallengeBundleReward_Quantity v) ];
     unmarshal := unmarshal_struct "ChallengeBundleReward"
       [ field "templateId" ChallengeBundleReward_TemplateID set_ChallengeBundleReward_TemplateID json_string;
         field "quantity" ChallengeBundleReward_Quantity set_ChallengeBundleReward_Quantity json_int ] |}.

Definition set_QuestDefinition x (v : ChallengeBundleObject) : ChallengeBundleObject :=
  {| QuestDefinition := x; ChallengeBundleObject_Rarity := ChallengeBundleObject_Rarity v; ChallengeBundleObject_Rewards := ChallengeBundleObject_Rewards v; ChallengeBundleObject_Objectives := ChallengeBundleObject_Objectives v; Options := Options v |}.

Definition set_ChallengeBundleObject_Rarity x (v : ChallengeBundleObject) : ChallengeBundleObject :=
  {| QuestDefinition := QuestDefinition v; ChallengeBundleObject_Rarity := x; ChallengeBundleObject_Rewards := ChallengeBundleObject_Rewards v; ChallengeBundleObject_Objectives := ChallengeBundleObject_Objectives v; Options := Options v |}.

Definition set_ChallengeBundleObject_Rewards x (v : ChallengeBundleObject) : ChallengeBundleObject :=
  {| QuestDefinition := QuestDefinition v; ChallengeBundleObject_Rarity := ChallengeBundleObject_Rarity v; ChallengeBundleObject_Rewards := x; ChallengeBundleObject_Objectives := ChallengeBundleObject_Objectives v; Options := Options v |}.

Definition set_ChallengeBundleObject_Objectives x (v : ChallengeBundleObject) : ChallengeBundleObject :=
  {| QuestDefinition := QuestDefinition v; ChallengeBundleObject_Rarity := ChallengeBundleObject_Rarity v; ChallengeBundleObject_Rewards := ChallengeBundleObject_Rewards v; ChallengeBundleObject_Objectives := x; Options := Options v |}.

Definition set_Options x (v : ChallengeBundleObject) : ChallengeBundleObject :=
  {| QuestDefinition := QuestDefinition v; ChallengeBundleObject_Rarity := ChallengeBundleObject_Rarity v; ChallengeBundleObject_Rewards := ChallengeBundleObject_Rewards v; ChallengeBundleObject_Objectives := ChallengeBundleObject_Objectives v; Options := x |}.

Definition json_ChallengeBundleObject : JSONType ChallengeBundleObject :=
  {| zero := {| QuestDefinition := ""; ChallengeBundleObject_Rarity := ""; ChallengeBundleObject_Rewards := None; ChallengeBundleObject_Objectives := None; Options := (zero json_ChallengeBundleOptions) |};
     marshal v := marshal_struct
       [ member "questDefinition" json_string (QuestDefinition v);
         member "rarity" json_string (ChallengeBundleObject_Rarity v);
         member "rewards" (json_slice json_ChallengeBundleReward) (ChallengeBundleObject_Rewards v);
         member "objectives" (json_slice json_ChallengeBundleObjective) (ChallengeBundleObject_Objectives v);
         member "options" json_ChallengeBundleOptions (Options v) ];
     unmarshal := unmarshal_struct "ChallengeBundleObject"
       [ field "questDefinition" QuestDefinition set_QuestDefinition json_string;
         field "rarity" ChallengeBundleObject_Rarity set_ChallengeBundleObject_Rarity json_string;
         field "rewards" ChallengeBundleObject_Rewards set_ChallengeBundleObject_Rewards (json_slice json_ChallengeBundleReward);
         field "objectives" ChallengeBundleObject_Objectives set_ChallengeBundleObject_Objectives (json_slice json_ChallengeBundleObjective);
         field "options" Options set_Options json_ChallengeBundleOptions ] |}.

Definition set_AthenaChallengeBundle_TemplateID x (v : AthenaChallengeBundle) : AthenaChallengeBundle :=
  {| AthenaChallengeBundle_TemplateID := x; AthenaChallengeBundle_ChallengeBundleSchedule := AthenaChallengeBundle_ChallengeBundleSchedule v; Objects := Objects v; Amount := Amount v; AthenaChallengeBundle_Rarity := AthenaChallengeBundle_Rarity v; CompletionRewards := CompletionRewards v |}.

Definition set_AthenaChallengeBundle_ChallengeBundleSchedule x (v : AthenaChallengeBundle) : AthenaChallengeBundle :=
  {| AthenaChallengeBundle_TemplateID := AthenaChallengeBundle_TemplateID v; AthenaChallengeBundle_ChallengeBundleSchedule := x; Objects := Objects v; Amount := Amount v; AthenaChallengeBundle_Rarity := AthenaChallengeBundle_Rarity v; CompletionRewards := CompletionRewards v |}.

Definition set_Objects x (v : AthenaChallengeBundle) : AthenaChallengeBundle :=
  {| AthenaChallengeBundle_TemplateID := AthenaChallengeBundle_TemplateID v; AthenaChallengeBundle_ChallengeBundleSchedule := AthenaChallengeBundle_ChallengeBundleSchedule v; Objects := x; Amount := Amount v; AthenaChallengeBundle_Rarity := AthenaChallengeBundle_Rarity v; CompletionRewards := CompletionRewards v |}.

Definition set_Amount x (v : AthenaChallengeBundle) : AthenaChallengeBundle :=
  {| AthenaChallengeBundle_TemplateID := AthenaChallengeBundle_TemplateID v; AthenaChallengeBundle_ChallengeBundleSchedule := AthenaChallengeBundle_ChallengeBundleSchedule v; Objects := Objects v; Amount := x; AthenaChallengeBundle_Rarity := AthenaChallengeBundle_Rarity v; CompletionRewards := CompletionRewards v |}.

Definition set_AthenaChallengeBundle_Rarity x (v : AthenaChallengeBundle) : AthenaChallengeBundle :=
  {| AthenaChallengeBundle_TemplateID := AthenaChallengeBundle_TemplateID v; AthenaChallengeBundle_ChallengeBundleSchedule := AthenaChallengeBundle_ChallengeBundleSchedule v; Objects := Objects v; Amount := Amount v; AthenaChallengeBundle_Rarity := x; CompletionRewards := CompletionRewards v |}.

Definition set_CompletionRewards x (v : AthenaChallengeBundle) : AthenaChallengeBundle :=
  {| AthenaChallengeBundle_TemplateID := AthenaChallengeBundle_TemplateID v; AthenaChallengeBundle_ChallengeBundleSchedule := AthenaChallengeBundle_ChallengeBundleSchedule v; Objects := Objects v; Amount := Amount v; AthenaChallengeBundle_Rarity := AthenaChallengeBundle_Rarity v; CompletionRewards := x |}.

Definition json_AthenaChallengeBundle : JSONType AthenaChallengeBundle :=
  {| zero := {| AthenaChallengeBundle_TemplateID := ""; AthenaChallengeBundle_ChallengeBundleSchedule := ""; Objects := None; Amount := 0; AthenaChallengeBundle_Rarity := ""; CompletionRewards := None |};
     marshal v := marshal_struct
       [ member "templateId" json_string (AthenaChallengeBundle_TemplateID v);
         member "challengeBundleSchedule" json_string (AthenaChallengeBundle_ChallengeBundleSchedule v);
         member "objects" (json_slice json_ChallengeBundleObject) (Objects v);
         member "amount" json_int (Amount v);
         member "rarity" json_string (AthenaChallengeBundle_Rarity v);
         member "completionRewards" (json_slice json_BundleCompletionReward) (CompletionRewards v) ];
     unmarshal := unmarshal_struct "AthenaChallengeBundle"
       [ field "templateId" AthenaChallengeBundle_TemplateID set_AthenaChallengeBundle_TemplateID json_string;
         field "challengeBundleSchedule" AthenaChallengeBundle_ChallengeBundleSchedule set_AthenaChallengeBundle_ChallengeBundleSchedule json_string;
         field "objects" Objects set_Objects (json_slice json_ChallengeBundleObject);
         field "amount" Amount set_Amount json_int;
         field "rarity" AthenaChallengeBundle_Rarity set_AthenaChallengeBundle_Rarity json_string;
         field "completionRewards" CompletionRewards set_CompletionRewards (json_slice json_BundleCompletionReward) ] |}.

Definition set_BaseQuest_Objectives x (v : BaseQuest) : BaseQuest :=
  {| BaseQuest_Objectives := x; BaseQuest_Rewards := BaseQuest_Rewards v; BaseQuest_Count := BaseQuest_Count v |}.

Definition set_BaseQuest_Rewards x (v : BaseQuest) : BaseQuest :=
  {| BaseQuest_Objectives := BaseQuest_Objectives v; BaseQuest_Rewards := x; BaseQuest_Count := BaseQuest_Count v |}.

Definition set_BaseQuest_Count x (v : BaseQuest) : BaseQuest :=
  {| BaseQuest_Objectives := BaseQuest_Objectives v; BaseQuest_Rewards := BaseQuest_Rewards v; BaseQuest_Count := x |}.

Definition json_BaseQuest : JSONType BaseQuest :=
  {| zero := {| BaseQuest_Objectives := None; BaseQuest_Rewards := None; BaseQuest_Count := 0 |};
     marshal v := marshal_struct
       [ member "objectives" (json_map json_Any) (BaseQuest_Objectives v);
         member "rewards" (json_map json_Any) (BaseQuest_Rewards v);
         member "count" json_int (BaseQuest_Count v) ];
     unmarshal := unmarshal_struct "BaseQuest"
       [ field "objectives" BaseQuest_Objectives set_BaseQuest_Objectives (json_map json_Any);
         field "rewards" BaseQuest_Rewards set_BaseQuest_Rewards (json_map json_Any);
         field "count" BaseQuest_Count set_BaseQuest_Count json_int ] |}.

Definition set_CacheResult_Success x (v : CacheResult) : CacheResult :=
  {| CacheResult_Success := x; CacheResult_Version := CacheResult_Version v; CacheResult_KeysCleared := CacheResult_KeysCleared v; CacheResult_Patterns := CacheResult_Patterns v; CacheResult_Timestamp := CacheResult_Timestamp v |}.

Definition set_CacheResult_Version x (v : CacheResult) : CacheResult :=
  {| CacheResult_Success := CacheResult_Success v; CacheResult_Version := x; CacheResult_KeysCleared := CacheResult_KeysCleared v; CacheResult_Patterns := CacheResult_Patterns v; CacheResult_Timestamp := CacheResult_Timestamp v |}.

Definition set_CacheResult_KeysCleared x (v : CacheResult) : CacheResult :=
  {| CacheResult_Success := CacheResult_Success v; CacheResult_Version := CacheResult_Version v; CacheResult_KeysCleared := x; CacheResult_Patterns := CacheResult_Patterns v; CacheResult_Timestamp := CacheResult_Timestamp v |}.

Definition set_CacheResult_Patterns x (v : CacheResult) : CacheResult :=
  {| CacheResult_Success := CacheResult_Success v; CacheResult_Version := CacheResult_Version v; CacheResult_KeysCleared := CacheResult_KeysCleared v; CacheResult_Patterns := x; CacheResult_Timestamp := CacheResult_Timestamp v |}.

Definition set_CacheResult_Timestamp x (v : CacheResult) : CacheResult :=
  {| CacheResult_Success := CacheResult_Success v; CacheResult_Version := CacheResult_Version v; CacheResult_KeysCleared := CacheResult_KeysCleared v; CacheResult_Patterns := CacheResult_Patterns v; CacheResult_Timestamp := x |}.

Definition json_CacheResult : JSONType CacheResult :=
  {| zero := {| CacheResult_Success := false; CacheResult_Version := ""; CacheResult_KeysCleared := 0; CacheResult_Patterns := None; CacheResult_Timestamp := Time_zero |};
     marshal v := marshal_struct
       [ member "success" json_bool (CacheResult_Success v);
         member "version" json_string (CacheResult_Version v);
         member "keysCleared" json_int (CacheResult_KeysCleared v);
         member_omitempty "patterns" (json_slice json_string) (fun x => match x with Some (_ :: _) => false | _ => true end) (CacheResult_Patterns v);
         member "timestamp" json_Time (CacheResult_Timestamp v) ];
     unmarshal := unmarshal_struct "CacheResult"
       [ field "success" CacheResult_Success set_CacheResult_Success json_bool;
         field "version" CacheResult_Version set_CacheResult_Version json_string;
         field "keysCleared" CacheResult_KeysCleared set_CacheResult_KeysCleared json_int;
         field "patterns" CacheResult_Patterns set_CacheResult_Patterns (json_slice json_string);
         field "timestamp" CacheResult_Timestamp set_CacheResult_Timestamp json_Time ] |}.

Definition set_ReadyStatus_Initialized x (v : ReadyStatus) : ReadyStatus :=
  {| ReadyStatus_Initialized := x; ReadyStatus_Version := ReadyStatus_Version v; ReadyStatus_Refreshed := ReadyStatus_Refreshed v |}.

Definition set_ReadyStatus_Version x (v : ReadyStatus) : ReadyStatus :=
  {| ReadyStatus_Initialized := ReadyStatus_Initialized v; ReadyStatus_Version := x; ReadyStatus_Refreshed := ReadyStatus_Refreshed v |}.

Definition set_ReadyStatus_Refreshed x (v : ReadyStatus) : ReadyStatus :=
  {| ReadyStatus_Initialized := ReadyStatus_Initialized v; ReadyStatus_Version := ReadyStatus_Version v; ReadyStatus_Refreshed := x |}.

Definition json_ReadyStatus : JSONType ReadyStatus :=
  {| zero := {| ReadyStatus_Initialized := false; ReadyStatus_Version := ""; ReadyStatus_Refreshed := false |};
     marshal v := marshal_struct
       [ member "initialized" json_bool (ReadyStatus_Initialized v);
         member "version" json_string (ReadyStatus_Version v);
         member_omitempty "refreshed" json_bool (fun x => negb x) (ReadyStatus_Refreshed v) ];
     unmarshal := unmarshal_struct "ReadyStatus"
       [ field "initialized" ReadyStatus_Initialized set_ReadyStatus_Initialized json_bool;
         field "version" ReadyStatus_Version set_ReadyStatus_Version json_string;
         field "refreshed" ReadyStatus_Refreshed set_ReadyStatus_Refreshed json_bool ] |}.

Definition set_ServiceStatus_Initialized x (v : ServiceStatus) : ServiceStatus :=
  {| ServiceStatus_Initialized := x; ServiceStatus_Version := ServiceStatus_Version v; ServiceStatus_Timestamp := ServiceStatus_Timestamp v |}.

Definition set_ServiceStatus_Version x (v : ServiceStatus) : ServiceStatus :=
  {| ServiceStatus_Initialized := ServiceStatus_Initialized v; ServiceStatus_Version := x; ServiceStatus_Timestamp := ServiceStatus_Timestamp v |}.

Definition set_ServiceStatus_Timestamp x (v : ServiceStatus) : ServiceStatus :=
  {| ServiceStatus_Initialized := ServiceStatus_Initialized v; ServiceStatus_Version := ServiceStatus_Version v; ServiceStatus_Timestamp := x |}.

Definition json_ServiceStatus : JSONType ServiceStatus :=
  {| zero := {| ServiceStatus_Initialized := false; ServiceStatus_Version := ""; ServiceStatus_Timestamp := Time_zero |};
     marshal v := marshal_struct
       [ member "initialized" json_bool (ServiceStatus_Initialized v);
         member "version" json_string (ServiceStatus_Version v);
         member "timestamp" json_Time (ServiceStatus_Timestamp v) ];
     unmarshal := unmarshal_struct "ServiceStatus"
       [ field "initialized" ServiceStatus_Initialized set_ServiceStatus_Initialized json_bool;
         field "version" ServiceStatus_Version set_ServiceStatus_Version json_string;
         field "timestamp" ServiceStatus_Timestamp set_ServiceStatus_Timestamp json_Time ] |}.

End Payloads.

(** ** Client.unmarshalResult *)

(** [json.Marshal(result)] followed by [json.Unmarshal(b, target)]; [from]
    and [to] are the Go types of [result] and of the variable [target] points
    to.  The answer is the content of that variable afterwards, or the
    error. *)
Definition unmarshalResult {R T} (from : JSONType R) (to : JSONType T)
    (result : R) (target : T) : Result T :=
  match marshal from result with
  | Err err => Err (Errorf_w "failed to marshal result: " err)
  | Ok b =>
      match unmarshal to b target with
      | Err err => Err (Errorf_w "failed to unmarshal result: " err)
      | Ok out => Ok out
      end
  end.

(** ** The typed methods *)

Section Methods.
Context {lib : Library}.

(** The common tail of the typed methods: [invoke], then decode into a fresh
    variable of the result type.  [ret] turns the variable into what the
    method returns ([&out] or [out]), [none] is the [nil] returned next to an
    error. *)
Definition call {T R} (to : JSONType T) (ret : T -> R) (none : R)
    (env : InvokeEnv) (ctx : option Context) (method : string) (args : list Any)
  : Go (R * error) :=
  r ← invoke env ctx method args;
  match r.2 with
  | Some err => mret (none, Some err)
  | None =>
      match unmarshalResult json_Any to r.1 (zero to) with
      | Err err => mret (none, Some err)
      | Ok out => mret (ret out, None)
      end
  end.

Definition GetServiceStatus (env : InvokeEnv) (ctx : option Context)
  : Go (option ServiceStatus * error) :=
  call json_ServiceStatus Some None env ctx "GetServiceStatus" [].

Definition GetDailyQuests (env : InvokeEnv) (ctx : option Context)
  : Go (option (list (string * BaseQuest)) * error) :=
  call (json_map json_BaseQuest) id None env ctx "GetDailyQuests" [].

Definition GetDailyQuest (env : InvokeEnv) (ctx : option Context) (questID : string)
  : Go (option BaseQuest * error) :=
  if String.eqb questID "" then mret (None, Some ErrInvalidQuestID)
  else call json_BaseQuest Some None env ctx "GetDailyQuest" [AString questID].

Definition GetChallengeBundles (env : InvokeEnv) (ctx : option Context)
  : Go (option (list AthenaChallengeBundle) * error) :=
  call (json_slice json_AthenaChallengeBundle) id None env ctx "GetChallengeBundles" [].

Definition GetChallengeBundle (env : InvokeEnv) (ctx : option Context) (templateID : string)
  : Go (option AthenaChallengeBundle * error) :=
  if String.eqb templateID "" then mret (None, Some ErrInvalidTemplateID)
  else call json_AthenaChallengeBundle Some None env ctx "GetChallengeBundle"
            [AString templateID].

Definition GetChallengeBundleSchedules (env : InvokeEnv) (ctx : option Context)
  : Go (option (list ChallengeBundleSchedule) * error) :=
  call (json_slice json_ChallengeBundleSchedule) id None env ctx
       "GetChallengeBundleSchedules" [].

Definition ClearCache (env : InvokeEnv) (ctx : option Context)
  : Go (option CacheResult * error) :=
  call json_CacheResult Some None env ctx "ClearCache" [].

End Methods.

Definition RefreshCache (env : InvokeEnv) (ctx : option Context) : Go error :=
  r ← invoke env ctx "RefreshCache" []; mret r.2.

(** ** The client in use *)

(** What can happen to a client: a call of its API by some goroutine, the
    watch loop of a state channel receiving a state, the transport delivering
    a Ready message. *)
Inductive Op : Type :=
  | op_Connect (env : ConnectEnv)
  | op_Disconnect
  | op_OnReady (h : Handler)
  | op_OnDisconnect (h : Handler)
  | op_invoke (env : InvokeEnv) (ctx : option Context) (method : string) (args : list Any)
  | op_state (stateCh : nat) (state : ClientState)
  | op_Ready (status : ReadyStatus).

Definition is_open (w : World) (stateCh : nat) : bool :=
  match stateChans w !! stateCh with
  | Some ch => negb (closed ch)
  | None => false
  end.

Definition step (op : Op) : Go unit :=
  match op with
  | op_Connect env => Connect env;; mret tt
  | op_Disconnect => Disconnect;; mret tt
  | op_OnReady h => OnReady h
  | op_OnDisconnect h => OnDisconnect h
  | op_invoke env ctx method args => invoke env ctx method args;; mret tt
  | op_state stateCh state =>
      w ← getWorld;
      if is_open w stateCh then watchStates_body state else mret tt
  | op_Ready status => Ready status
  end.

Definition run (ops : list Op) : Go unit := range ops step.

Definition start (url_ : string) (opts : list ClientOption) : Machine :=
  {| client := NewClient url_ opts; world := World_empty |}.

(** A transport that was started and not stopped. *)
Definition active (t : Transport) : bool := started t && negb (stopped t).

Definition active_transports (w : World) : list Transport :=
  List.filter active (transports w).

(** The watch loops still ranging over their channel. *)
Definition running_watchers (w : World) : list Goroutine :=
  List.filter (fun g => match g with
                        | go_watchStates stateCh => is_open w stateCh
                        | _ => false
                        end) (goroutines w).

(** The calls submitted to any transport. *)
Definition transport_calls (w : World) : list Call :=
  List.concat (map invoked (transports w)).

(** The goroutines started for disconnect handlers. *)
Definition disconnect_dispatches (w : World) : list (Handler * error) :=
  omap (fun g => match g with
                 | go_disconnect h err => Some (h, err)
                 | _ => None
                 end) (goroutines w).

(** The states a client goes through: whatever follows [NewClient] by some
    sequence of events, each of which returned. *)
Definition reachable (m : Machine) : Prop :=
  exists url_ opts ops, run ops (start url_ opts) = Returns tt m.

(** A library whose conversions all fail: enough wherever no number or time
    is converted. *)
Definition no_conversions : Library :=
  {| FormatFloat _ := None; ParseFloat _ := None;
     Time_MarshalJSON _ := None; Time_UnmarshalJSON _ := None |}.

(** What [watchStates] passes to the disconnect handlers when the client's
    transport is number [h]: its last error, or [ErrNotConnected] when it has
    none. *)
Definition closed_error (w : World) (h : nat) : error :=
  let err := t ← transports w !! h; lastErr t in
  match err with
  | None => Some ErrNotConnected
  | Some _ => err
  end.

(** A client right after [Connect] succeeded and its watch loop saw
    [ClientConnected]. *)
Definition connected_machine : Machine :=
  {| client := {| connection := Some 0%nat; url := "http://localhost:5294/hub";
                  timeout := 30 * time_Second; connected := true;
                  readyHandlers := []; disconnectHandlers := [];
                  observeCancel := Some 0%nat |};
     world := {| httpConnections := 1;
                 transports := [Transport_Start Transport_new];
                 stateChans := [mkStateChan 0 false];
                 goroutines := [go_watchStates 0];
                 logged := [mkLogEntry LInfo "Connecting to Hub at %s"
                                       ["http://localhost:5294/hub"];
                            mkLogEntry LInfo "Connected to Hub" []] |} |}.

(** The machine after the call was handed to transport [h]. *)
Definition submitted (method : string) (args : list Any) (h : nat) (m : Machine) : Machine :=
  {| client := client m;
     world := set_transports (alter (Transport_Invoke method args) h (transports (world m)))
                             (world m) |}.

(** ** Values that come back unchanged from JSON *)

(** Writing [v] and reading the document into a fresh variable of the same
    type yields [v]. *)
Definition roundtrips {T} (ty : JSONType T) (v : T) : Prop :=
  unmarshalResult ty ty v (zero ty) = Ok v.

(** All elements of a slice, when it is not nil. *)
Definition slice_all {T} (P : T -> Prop) (s : option (list T)) : Prop :=
  match s with
  | None => True
  | Some xs => Forall P xs
  end.

Section Exact.
Context {lib : Library}.

(** The literal written for the float is read back as the same float. *)
Definition float64_exact (bits : Z) : Prop :=
  exists lit, FormatFloat bits = Some lit /\ ParseFloat lit = Some bits.

(** The text written for the time is read back as the same [time.Time]
    value. *)
Definition Time_exact (t : Time) : Prop :=
  exists text, Time_MarshalJSON t = Some text /\ Time_UnmarshalJSON text = Some t.

(** An [interface{}] value of the shape [Unmarshal] produces: nil, bool,
    float64, string, slice or map of such values; strings and keys in valid
    UTF-8. *)
Fixpoint Any_exact (v : Any) : Prop :=
  match v with
  | ANil => True
  | ABool _ => True
  | AInt _ => False
  | AFloat64 bits => float64_exact bits
  | AString s => utf8_ValidString s = true
  | ASlice xs => fold_right (fun x P => Any_exact x /\ P) True xs
  | AMap kvs =>
      keys_ascending kvs = true
      /\ fold_right (fun kv P => (utf8_ValidString kv.1 = true /\ Any_exact kv.2) /\ P) True kvs
  | AUnsupported _ => False
  end.

Definition map_exact (m : option (list (string * Any))) : Prop :=
  match m with
  | None => True
  | Some kvs => Any_exact (AMap kvs)
  end.

Definition ReadyStatus_exact (v : ReadyStatus) : Prop :=
  utf8_ValidString (ReadyStatus_Version v) = true.

Definition ServiceStatus_exact (v : ServiceStatus) : Prop :=
  utf8_ValidString (ServiceStatus_Version v) = true
  /\ Time_exact (ServiceStatus_Timestamp v).

(** [Patterns] is tagged [omitempty]: an empty slice that is not nil is
    written like nil. *)
Definition CacheResult_exact (v : CacheResult) : Prop :=
  utf8_ValidString (CacheResult_Version v) = true
  /\ is_int (CacheResult_KeysCleared v) = true
  /\ CacheResult_Patterns v <> Some []
  /\ slice_all (fun s => utf8_ValidString s = true) (CacheResult_Patterns v)
  /\ Time_exact (CacheResult_Timestamp v).

Definition BaseQuest_exact (v : BaseQuest) : Prop :=
  map_exact (BaseQuest_Objectives v)
  /\ map_exact (BaseQuest_Rewards v)
  /\ is_int (BaseQuest_Count v) = true.

End Exact.

Definition ChallengeBundleSchedule_exact (v : ChallengeBundleSchedule) : Prop :=
  utf8_ValidString (ChallengeBundleSchedule_TemplateID v) = true
  /\ utf8_ValidString (QuestBundle v) = true.

Definition BundleCompletionReward_exact (v : BundleCompletionReward) : Prop :=
  utf8_ValidString (BundleCompletionReward_TemplateID v) = true
  /\ is_int (BundleCompletionReward_Quantity v) = true.

Definition ChallengeBundleReward_exact (v : ChallengeBundleReward) : Prop :=
  utf8_ValidString (ChallengeBundleReward_TemplateID v) = true
  /\ is_int (ChallengeBundleReward_Quantity v) = true.

Definition ChallengeBundleObjective_exact (v : ChallengeBundleObjective) : Prop :=
  utf8_ValidString (ChallengeBundleObjective_BackendName v) = true
  /\ is_int (ChallengeBundleObjective_Count v) = true
  /\ is_int (ChallengeBundleObjective_Stage v) = true.

Definition ChallengeBundleObject_exact (v : ChallengeBundleObject) : Prop :=
  utf8_ValidString (QuestDefinition v) = true
  /\ utf8_ValidString (ChallengeBundleObject_Rarity v) = true
  /\ slice_all ChallengeBundleReward_exact (ChallengeBundleObject_Rewards v)
  /\ slice_all ChallengeBundleObjective_exact (ChallengeBundleObject_Objectives v).

Definition AthenaChallengeBundle_exact (v : AthenaChallengeBundle) : Prop :=
  utf8_ValidString (AthenaChallengeBundle_TemplateID v) = true
  /\ utf8_ValidString (AthenaChallengeBundle_ChallengeBundleSchedule v) = true
  /\ slice_all ChallengeBundleObject_exact (Objects v)
  /\ is_int (Amount v) = true
  /\ utf8_ValidString (AthenaChallengeBundle_Rarity v) = true
  /\ slice_all BundleCompletionReward_exact (CompletionRewards v).

(** What a field type has to satisfy for the struct lemmas below: a value
    accepted by [ok] is written without error, and reading the document into
    a variable holding the zero value gives the value back. *)
Definition codec_exact {T} (ty : JSONType T) (ok : T -> Prop) : Prop :=
  forall v, ok v -> exists j, marshal ty v = Ok j /\ unmarshal ty j (zero ty) = Ok v.


(** The float64 values 1 and 5 as bit patterns. *)
Definition float64_1 : Z := 0x3FF0000000000000.
Definition float64_5 : Z := 0x4014000000000000.

(** What packages strconv and time answer on the inputs used in the examples:
    the floats 1 and 5 are written ["1"] and ["5"] and read back from these,
    the zero time is written ["0001-01-01T00:00:00Z"] and read back from it.
    Other inputs are not listed. *)
Definition listed_conversions : Library :=
  {| FormatFloat bits :=
       if bits =? float64_1 then Some "1"
       else if bits =? float64_5 then Some "5" else None;
     ParseFloat lit :=
       if String.eqb lit "1" then Some float64_1
       else if String.eqb lit "5" then Some float64_5 else None;
     Time_MarshalJSON t :=
       if (wall t =? 0) && (ext t =? 0) && bool_decide (loc t = None)
       then Some "0001-01-01T00:00:00Z" else None;
     Time_UnmarshalJSON text :=
       if String.eqb text "0001-01-01T00:00:00Z" then Some Time_zero else None |}.

(** ** What a sequence of observed states leaves behind *)

(** The connected flag after the watch loop handled [state]. *)
Definition observed (flag : bool) (state : ClientState) : bool :=
  match state with
  | ClientConnected => true
  | ClientClosed => false
  | _ => flag
  end.

(** The disconnect notifications the watch loop starts for [state]. *)
Definition notified (handlers : list Handler) (err : error) (state : ClientState)
  : list (Handler * error) :=
  match state with
  | ClientClosed => map (fun hd => (hd, err)) handlers
  | _ => []
  end.

(** The goroutines started for ready handlers. *)
Definition ready_dispatches (w : World) : list (Handler * ReadyStatus) :=
  omap (fun g => match g with
                 | go_ready h status => Some (h, status)
                 | _ => None
                 end) (goroutines w).

(** The state channels that the watch goroutines started so far range over,
    in the order the goroutines were started. *)
Definition watched (w : World) : list nat :=
  omap (fun g => match g with
                 | go_watchStates stateCh => Some stateCh
                 | _ => None
                 end) (goroutines w).

(** How the client's references hang together: the [connection] field names
    an existing transport; the cancel function in [observeCancel] belongs to
    an open state channel registered with that transport; every state channel
    made so far has exactly one watch goroutine; and while there is no
    transport the flag is false. *)
Definition well_connected (m : Machine) : Prop :=
  (forall h, connection (client m) = Some h -> (h < length (transports (world m)))%nat)
  /\ (forall ch, observeCancel (client m) = Some ch ->
        exists h, connection (client m) = Some h
                  /\ stateChans (world m) !! ch = Some (mkStateChan h false))
  /\ watched (world m) = seq 0 (length (stateChans (world m)))
  /\ (connection (client m) = None ->
        connected (client m) = false /\ stateChans (world m) = []).

(** A context without deadline that is never cancelled, or no context. *)
Definition plain_context (ctx : option Context) : Prop :=
  match ctx with
  | None => True
  | Some c => ctx_deadline c = None /\ ctx_canceledAt c = None
  end.


(** A result that is a JSON scalar other than a number read as float. *)
Definition scalar_result (v : Any) : Prop :=
  match v with
  | ABool _ | AString _ | AInt _ => True
  | _ => False
  end.

(** The shape of what [Unmarshal] stores in an [interface{}]: no [int] and
    no value of a type encoding/json refuses, at any depth. *)
Fixpoint Any_decoded (v : Any) : bool :=
  match v with
  | ANil | ABool _ | AFloat64 _ | AString _ => true
  | AInt _ | AUnsupported _ => false
  | ASlice xs => forallb Any_decoded xs
  | AMap kvs => forallb (fun kv => Any_decoded kv.2) kvs
  end.

(** A result the typed methods cannot decode: a scalar where a struct, slice
    or map is expected, or a value encoding/json cannot write. *)
Definition undecodable (v : Any) : Prop :=
  scalar_result v \/ exists ty, v = AUnsupported ty.

(** The error [unmarshalResult] returns for such a result: the second stage
    failed for a scalar, the first for an unsupported value. *)
Definition decode_failure (v : Any) (e : GoError) : Prop :=
  (scalar_result v
   /\ exists msg, e = Errorf_w "failed to unmarshal result: " (Foreign msg))
  \/ (exists ty, v = AUnsupported ty
                 /\ e = Errorf_w "failed to marshal result: " (UnsupportedTypeError ty)).

(** ** tests/main.go: runOperations and writeJSONFile *)

(** What [runOperations] leaves outside the client: the files written (name
    and content, the content as the document [json.MarshalIndent] renders) and
    the lines handed to package log (format and arguments). *)
Record Output : Type := mkOutput {
  written : list (string * JSON);
  printed : list (string * list string);
}.

Definition Output_empty : Output := {| written := []; printed := [] |}.

(** [log.Println(text)]. *)
Definition log_Println (text : string) (out : Output) : Output :=
  {| written := written out; printed := printed out ++ [(text, [])] |}.

(** [log.Printf(format, args...)]. *)
Definition log_Printf (format : string) (args : list string) (out : Output) : Output :=
  {| written := written out; printed := printed out ++ [(format, args)] |}.

(** What happens around one run: the circumstances of each of the five calls
    and whether [os.WriteFile] fails for a given file name. *)
Record RunEnv : Type := mkRunEnv {
  at_status : InvokeEnv;
  at_clear : InvokeEnv;
  at_quests : InvokeEnv;
  at_bundles : InvokeEnv;
  at_schedules : InvokeEnv;
  WriteFile_err : string -> error;
}.

Definition writeJSONFile {T} (env : RunEnv) (ty : JSONType T) (filename : string)
    (v : T) (out : Output) : error * Output :=
  match marshal ty v with
  | Err err => (Some err, out)
  | Ok data =>
      match WriteFile_err env filename with
      | Some err => (Some err, out)
      | None => (None, {| written := written out ++ [(filename, data)];
                          printed := printed out |})
      end
  end.

(** [call(d)]: [context.WithTimeout(context.Background(), d)] at the instant
    of the call it is made for. *)
Definition call_context (env : InvokeEnv) (d : Z) : option Context :=
  Some (context_WithTimeout (now env) context_Background d).

Definition len {A} (s : option (list A)) : string :=
  FormatInt (Z.of_nat (length (default [] s))).

Definition newline : string := String (ascii_of_nat 10) "".

Section Main.
Context {lib : Library}.

Definition runOperations (env : RunEnv) : Go (error * Output) :=
  let out := Output_empty in
  r ← GetServiceStatus (at_status env) (call_context (at_status env) (10 * time_Second));
  match r with
  | (_, Some err) => mret (Some (Errorf_w "get status: " err), out)
  | (None, None) => panic nil_dereference
  | (Some status, None) =>
  let out := log_Printf "Version: %s" [ServiceStatus_Version status] out in
  let out := log_Printf "Initialized: %v"
               [if ServiceStatus_Initialized status then "true" else "false"] out in
  let out := log_Println (newline +:+ "Clearing cache") out in
  r ← ClearCache (at_clear env) (call_context (at_clear env) (15 * time_Second));
  match r with
  | (_, Some err) => mret (Some (Errorf_w "clear cache: " err), out)
  | (None, None) => panic nil_dereference
  | (Some clearResult, None) =>
  let out := log_Printf "Cleared %d keys" [FormatInt (CacheResult_KeysCleared clearResult)]
                        out in
  r ← GetDailyQuests (at_quests env) (call_context (at_quests env) (15 * time_Second));
  match r with
  | (_, Some err) => mret (Some (Errorf_w "get quests: " err), out)
  | (quests, None) =>
  match writeJSONFile env (json_map json_BaseQuest) "daily_quests.json" quests out with
  | (Some err, out) => mret (Some (Errorf_w "write daily quests json: " err), out)
  | (None, out) =>
  let out := log_Printf "Found %d daily quests" [len quests] out in
  r ← GetChallengeBundles (at_bundles env)
        (call_context (at_bundles env) (30 * time_Second));
  match r with
  | (_, Some err) => mret (Some (Errorf_w "get bundles: " err), out)
  | (bundles, None) =>
  match writeJSONFile env (json_slice json_AthenaChallengeBundle)
                      "challenge_bundles.json" bundles out with
  | (Some err, out) => mret (Some (Errorf_w "write challenge bundles json: " err), out)
  | (None, out) =>
  let out := log_Printf "Found %d challenge bundles" [len bundles] out in
  r ← GetChallengeBundleSchedules (at_schedules env)
        (call_context (at_schedules env) (30 * time_Second));
  match r with
  | (_, Some err) => mret (Some (Errorf_w "get schedules: " err), out)
  | (schedules, None) =>
  match writeJSONFile env (json_slice json_ChallengeBundleSchedule)
                      "bundle_schedules.json" schedules out with
  | (Some err, out) => mret (Some (Errorf_w "write schedules json: " err), out)
  | (None, out) =>
  let out := log_Printf "Found %d schedules" [len schedules] out in
  mret (None, out)
  end end end end end end end end.

End Main.


(** ** What never shrinks *)

(** From [m] to [m']: the configuration is the same, and the handler lists,
    the goroutines started, the log, the transports and the state channels
    have only been extended. *)
Definition extends_ (m m' : Machine) : Prop :=
  url (client m') = url (client m)
  /\ timeout (client m') = timeout (client m)
  /\ readyHandlers (client m) `prefix_of` readyHandlers (client m')
  /\ disconnectHandlers (client m) `prefix_of` disconnectHandlers (client m')
  /\ goroutines (world m) `prefix_of` goroutines (world m')
  /\ logged (world m) `prefix_of` logged (world m')
  /\ (length (transports (world m)) <= length (transports (world m')))%nat
  /\ (length (stateChans (world m)) <= length (stateChans (world m')))%nat.

(** ** One transport at a time *)



(** * Properties *)

Ltac go_unfold :=
  unfold mbind, Go_mbind, Go_bind, mret, Go_mret, Go_ret.

Ltac go_run :=
  unfold assign, go, logf; unfold effect;
  unfold getClient, getWorld, putClient, putWorld, panic, block;
  go_unfold; cbn.

(** ** Invocation while disconnected *)

Lemma invoke_disconnected env ctx method args m :
  connected (client m) = false ->
  invoke env ctx method args m = Returns (ANil, Some ErrNotConnected) m.
Proof.
  intros Hc. unfold invoke, IsConnected. go_run. by rewrite Hc.
Qed.

Lemma call_disconnected {lib : Library} {T R} (to : JSONType T) (ret : T -> R) (none : R)
    env ctx method args m :
  connected (client m) = false ->
  call to ret none env ctx method args m = Returns (none, Some ErrNotConnected) m.
Proof.
  intros Hc. unfold call. go_unfold. by rewrite invoke_disconnected.
Qed.

Lemma eqb_nonempty (s : string) : s <> "" -> String.eqb s "" = false.
Proof. intros Hs. by apply String.eqb_neq. Qed.

(** Claim C1.  While the connected flag is false, [invoke] returns
    [ErrNotConnected] at once for every method name and argument list, and so
    does every typed method that reaches it; the client and the transports
    are left as they were, so no call was submitted. *)
Theorem invoke_not_connected (lib : Library) (env : InvokeEnv) (ctx : option Context)
    (method : string) (args : list Any) (m : Machine) :
  connected (client m) = false ->
  invoke env ctx method args m = Returns (ANil, Some ErrNotConnected) m
  /\ GetServiceStatus env ctx m = Returns (None, Some ErrNotConnected) m
  /\ GetDailyQuests env ctx m = Returns (None, Some ErrNotConnected) m
  /\ (forall questID, questID <> "" ->
        GetDailyQuest env ctx questID m = Returns (None, Some ErrNotConnected) m)
  /\ GetChallengeBundles env ctx m = Returns (None, Some ErrNotConnected) m
  /\ (forall templateID, templateID <> "" ->
        GetChallengeBundle env ctx templateID m = Returns (None, Some ErrNotConnected) m)
  /\ GetChallengeBundleSchedules env ctx m = Returns (None, Some ErrNotConnected) m
  /\ ClearCache env ctx m = Returns (None, Some ErrNotConnected) m
  /\ RefreshCache env ctx m = Returns (Some ErrNotConnected) m.
Proof.
  intros Hc. repeat split.
  - by apply invoke_disconnected.
  - by apply call_disconnected.
  - by apply call_disconnected.
  - intros q Hq. unfold GetDailyQuest. rewrite eqb_nonempty by done.
    by apply call_disconnected.
  - by apply call_disconnected.
  - intros t Ht. unfold GetChallengeBundle. rewrite eqb_nonempty by done.
    by apply call_disconnected.
  - by apply call_disconnected.
  - by apply call_disconnected.
  - unfold RefreshCache. go_unfold. by rewrite invoke_disconnected.
Qed.

Lemma invoke_not_connected_witness :
  let m := start "http://localhost:5294/hub" [] in
  let env := {| now := 0; reply := None; coin := false |} in
  connected (client m) = false
  /\ invoke env None "GetDailyQuests" [] m = Returns (ANil, Some ErrNotConnected) m.
Proof.
  split; [reflexivity|].
  apply (invoke_not_connected no_conversions); reflexivity.
Defined.

(** ** Identifier validation *)

(** Claim C7.  [GetDailyQuest] with the empty identifier returns
    [ErrInvalidQuestID] and [GetChallengeBundle] with the empty identifier
    returns [ErrInvalidTemplateID], in every state of the client, connected or
    not, and without touching the client or the transports: the check comes
    before the connectivity check and before any call. *)
Theorem empty_identifier_rejected (lib : Library) (env : InvokeEnv)
    (ctx : option Context) (m : Machine) :
  GetDailyQuest env ctx "" m = Returns (None, Some ErrInvalidQuestID) m
  /\ GetChallengeBundle env ctx "" m = Returns (None, Some ErrInvalidTemplateID) m.
Proof. split; reflexivity. Qed.

(** ** Reachable states *)

Lemma run_cons op ops m :
  run (op :: ops) m =
  match step op m with
  | Returns _ m' => run ops m'
  | Panics why => Panics why
  | Blocks => Blocks
  end.
Proof. reflexivity. Qed.

Lemma go_eq g m :
  go g m = Returns tt {| client := client m;
                         world := set_goroutines (goroutines (world m) ++ [g]) (world m) |}.
Proof. reflexivity. Qed.

Lemma range_go {A} (f : A -> Goroutine) (xs : list A) (m : Machine) :
  range xs (fun x => go (f x)) m =
  Returns tt {| client := client m;
                world := set_goroutines (goroutines (world m) ++ map f xs) (world m) |}.
Proof.
  revert m. induction xs as [|x xs IH]; intros [c [n ts chs gs lg]]; cbn.
  - unfold set_goroutines; cbn. by rewrite app_nil_r.
  - go_unfold. rewrite go_eq, IH. unfold set_goroutines; cbn. by rewrite <- app_assoc.
Qed.

(** While the [connection] field is nil the flag is false and no state
    channel exists. *)
Definition connection_first (m : Machine) : Prop :=
  connection (client m) = None ->
  connected (client m) = false /\ stateChans (world m) = [].

Lemma is_open_nil w stateCh : stateChans w = [] -> is_open w stateCh = false.
Proof. intros Hw. unfold is_open. by rewrite Hw. Qed.

Lemma select_deadline env ctx d :
  ctx_deadline ctx = Some d -> exists sel, select env ctx = Some sel.
Proof.
  intros Hd. unfold select, ctx_done. rewrite Hd.
  destruct (reply env) as [[r res]|], (ctx_canceledAt ctx) as [k|];
    cbn; repeat (case_match; simplify_eq/=); eauto.
Qed.

Lemma invoke_context_deadline env ctx m :
  exists ctx', invoke_context env ctx m = Returns (Some ctx') m
               /\ is_Some (ctx_deadline ctx').
Proof.
  unfold invoke_context.
  destruct ctx as [ctx|]; cbn.
  - go_run. destruct (ctx_deadline ctx) as [d|] eqn:Hd; cbn.
    + exists ctx. by rewrite Hd.
    + eexists; split; [done|]. cbn. by rewrite Hd.
  - go_run. eexists; split; [done|]. cbn. done.
Qed.

Lemma invoke_wait_returns env ctx method m :
  is_Some (ctx_deadline ctx) ->
  exists r m', invoke_wait env (Some ctx) method m = Returns r m'
               /\ client m' = client m
               /\ stateChans (world m') = stateChans (world m).
Proof.
  intros [d Hd]. destruct (select_deadline env ctx d Hd) as [sel Hsel].
  unfold invoke_wait. rewrite Hsel.
  destruct sel as [res|err]; [destruct (Error_ res)|]; go_run; eauto.
Qed.

Lemma invoke_connected env ctx method args m h ctx' :
  connected (client m) = true ->
  connection (client m) = Some h ->
  invoke_context env ctx m = Returns ctx' m ->
  invoke env ctx method args m =
  invoke_wait env ctx' method
    {| client := client m;
       world := set_transports (alter (Transport_Invoke method args) h (transports (world m)))
                               (world m) |}.
Proof.
  intros Hc Hh Hctx. unfold invoke, IsConnected, on_connection, update_transport.
  go_unfold. unfold getClient. rewrite Hc. cbn [negb]. by rewrite Hctx, Hh.
Qed.

Lemma invoke_returns env ctx method args m :
  connection_first m ->
  exists r m', invoke env ctx method args m = Returns r m'
               /\ client m' = client m
               /\ stateChans (world m') = stateChans (world m).
Proof.
  intros Hinv.
  destruct (connected (client m)) eqn:Hc.
  - destruct (invoke_context_deadline env ctx m) as (ctx' & Hctx & Hd).
    destruct (connection (client m)) as [h|] eqn:Hh.
    + rewrite (invoke_connected _ _ _ _ _ h (Some ctx')) by done.
      match goal with |- context [invoke_wait _ _ _ ?m1] =>
        destruct (invoke_wait_returns env ctx' method m1 Hd) as (r & m' & -> & ? & ?) end.
      eauto.
    + destruct (Hinv Hh) as [? _]. congruence.
  - rewrite invoke_disconnected by done. eauto.
Qed.

(** The error handed to the disconnect handlers. *)
Lemma watchStates_closed_notify_eq m h :
  connection (client m) = Some h ->
  let err := closed_error (world m) h in
  watchStates_closed_notify m =
  Returns tt
    {| client := client m;
       world := set_goroutines
                  (goroutines (world m)
                   ++ map (fun hd => go_disconnect hd err) (disconnectHandlers (client m)))
                  (set_logged
                     (logged (world m)
                      ++ [mkLogEntry LInfo "Disconnected from Hub: %v"
                                     [from_option Error "<nil>" err]])
                     (world m)) |}.
Proof.
  intros Hh. unfold watchStates_closed_notify, on_connection.
  go_unfold. unfold getClient, getWorld. rewrite Hh.
  unfold logf, effect, getWorld, putWorld. go_unfold.
  by rewrite range_go.
Qed.

Lemma Ready_eq status m :
  Ready status m =
  Returns tt
    {| client := client m;
       world := set_goroutines
                  (goroutines (world m)
                   ++ map (fun hd => go_ready hd status) (readyHandlers (client m)))
                  (set_logged
                     (logged (world m)
                      ++ [mkLogEntry LInfo "Service ready - Version: %s, Initialized: %v"
                            [ReadyStatus_Version status;
                             if ReadyStatus_Initialized status then "true" else "false"]])
                     (world m)) |}.
Proof.
  unfold Ready. go_unfold. unfold getClient.
  unfold logf, effect, getWorld, putWorld. go_unfold.
  by rewrite range_go.
Qed.

Lemma step_connection_first op m m' :
  step op m = Returns tt m' -> connection_first m -> connection_first m'.
Proof.
  destruct m as [c w]. unfold connection_first. cbn.
  destruct op as [env| |h|h|env ctx method args|stateCh state|status]; cbn.
  - unfold Connect, signalr_NewClient, on_connection, ObserveStateChanged, update_transport.
    go_run. repeat case_match; intros; simplify_eq/=; naive_solver.
  - unfold Disconnect, update_transport. go_run.
    repeat case_match; intros; simplify_eq/=; naive_solver.
  - unfold OnReady. go_run. intros; simplify_eq/=; eauto.
  - unfold OnDisconnect. go_run. intros; simplify_eq/=; eauto.
  - go_unfold. intros Hs Hinv.
    destruct (invoke_returns env ctx method args (mkMachine c w) Hinv)
      as (r & m1 & Hr & Hc & Hw).
    rewrite Hr in Hs. injection Hs as <-. cbn in *. intros Hn.
    rewrite Hc in Hn. rewrite Hw, Hc. eauto.
  - go_run. destruct (is_open w stateCh) eqn:Hopen.
    + intros Hs Hinv Hn.
      assert (is_Some (connection c)) as [h Hh].
      { destruct (connection c) eqn:Hcn; [eauto|].
        destruct (Hinv eq_refl) as [_ Hch]. by rewrite is_open_nil in Hopen. }
      revert Hs Hn. unfold watchStates_body, watchStates_closed_mark.
      destruct state; try (go_run; intros; simplify_eq/=; congruence).
      go_unfold. unfold assign, getClient, putClient. go_unfold.
      rewrite (watchStates_closed_notify_eq _ h) by done.
      intros; simplify_eq/=.
    + intros; simplify_eq/=; eauto.
  - rewrite Ready_eq. intros; simplify_eq/=; eauto.
Qed.

Lemma run_connection_first ops m m' :
  run ops m = Returns tt m' -> connection_first m -> connection_first m'.
Proof.
  revert m. induction ops as [|op ops IH]; intros m.
  - cbn. go_run. intros; simplify_eq. done.
  - rewrite run_cons. destruct (step op m) as [[] m1| |] eqn:Hs; try done.
    intros Hr Hinv. eapply IH; [done|]. by eapply step_connection_first.
Qed.

Lemma NewClient_fresh url_ opts :
  connection (NewClient url_ opts) = None
  /\ connected (NewClient url_ opts) = false
  /\ readyHandlers (NewClient url_ opts) = []
  /\ disconnectHandlers (NewClient url_ opts) = []
  /\ observeCancel (NewClient url_ opts) = None.
Proof.
  unfold NewClient.
  match goal with |- context [foldl _ ?c0 _] =>
    assert (connection c0 = None /\ connected c0 = false /\ readyHandlers c0 = []
            /\ disconnectHandlers c0 = [] /\ observeCancel c0 = None) as Hc0 by done;
    revert Hc0; generalize c0 end.
  induction opts as [|opt opts IH]; intros c0 Hc0; [done|].
  cbn. apply IH. by destruct opt.
Qed.

Lemma reachable_connection_first m : reachable m -> connection_first m.
Proof.
  intros (url_ & opts & ops & Hrun).
  eapply run_connection_first; [done|].
  intros _. split; [|done]. apply NewClient_fresh.
Qed.

Lemma connected_machine_reachable : reachable connected_machine.
Proof.
  exists "http://localhost:5294/hub", [],
    [op_Connect (mkConnectEnv None None); op_state 0%nat ClientConnected].
  reflexivity.
Qed.

(** ** The deadline of a call *)

Lemma invoke_context_some env ctx m :
  invoke_context env (Some ctx) m =
  Returns (Some (match ctx_deadline ctx with
                 | None => context_WithTimeout (now env) ctx (timeout (client m))
                 | Some _ => ctx
                 end)) m.
Proof. unfold invoke_context. go_run. by destruct (ctx_deadline ctx). Qed.

Lemma invoke_context_nil env m :
  invoke_context env None m = invoke_context env (Some context_Background) m.
Proof. reflexivity. Qed.

Lemma WithTimeout_deadline now_ ctx timeout_ :
  ctx_deadline ctx = None ->
  ctx_deadline (context_WithTimeout now_ ctx timeout_) = Some (now_ + timeout_).
Proof. intros Hd. cbn. by rewrite Hd. Qed.

(** Claim C2.  A connected call waits on a context derived from the caller's:
    when the caller's context carries no deadline, the context waited on has
    the deadline "instant of the call plus the configured timeout"; when it
    carries a deadline, the caller's context itself is waited on, with that
    deadline, neither shortened nor extended. *)
Theorem invoke_effective_deadline (env : InvokeEnv) (ctx : Context) (method : string)
    (args : list Any) (m : Machine) (h : nat) :
  connected (client m) = true ->
  connection (client m) = Some h ->
  exists used : Context,
    invoke_context env (Some ctx) m = Returns (Some used) m
    /\ invoke env (Some ctx) method args m
       = invoke_wait env (Some used) method (submitted method args h m)
    /\ (ctx_deadline ctx = None ->
        ctx_deadline used = Some (now env + timeout (client m)))
    /\ (forall d, ctx_deadline ctx = Some d ->
        used = ctx /\ ctx_deadline used = Some d).
Proof.
  intros Hc Hh. eexists. split; [apply invoke_context_some|]. split; [|split].
  - by apply invoke_connected, invoke_context_some.
  - intros Hd. rewrite Hd. by apply WithTimeout_deadline.
  - intros d Hd. by rewrite Hd.
Qed.

Lemma invoke_effective_deadline_witness :
  let env := {| now := 100; reply := None; coin := false |} in
  connected (client connected_machine) = true
  /\ connection (client connected_machine) = Some 0%nat
  /\ exists used : Context,
       invoke_context env (Some context_Background) connected_machine
       = Returns (Some used) connected_machine
       /\ invoke env (Some context_Background) "ClearCache" [] connected_machine
          = invoke_wait env (Some used) "ClearCache"
              (submitted "ClearCache" [] 0 connected_machine)
       /\ (ctx_deadline context_Background = None ->
           ctx_deadline used = Some (100 + timeout (client connected_machine)))
       /\ (forall d, ctx_deadline context_Background = Some d ->
           used = context_Background /\ ctx_deadline used = Some d).
Proof.
  split; [reflexivity|]. split; [reflexivity|].
  apply (invoke_effective_deadline
           {| now := 100; reply := None; coin := false |}
           context_Background "ClearCache" [] connected_machine 0%nat);
    reflexivity.
Defined.

(** ** A nil context *)

Lemma call_returns {lib : Library} {T R} (to : JSONType T) (ret : T -> R) (none : R)
    env ctx method args m :
  connection_first m ->
  exists r m', call to ret none env ctx method args m = Returns r m'.
Proof.
  intros Hinv. unfold call. go_unfold.
  destruct (invoke_returns env ctx method args m Hinv) as (r & m' & -> & _).
  destruct r.2; [eauto|]. destruct unmarshalResult; eauto.
Qed.

(** Claim C10.  In every state a client can reach, [invoke] called with a nil
    context returns (it neither panics nor blocks), for every method name and
    argument list: the nil context is replaced by the background context,
    which has no deadline and therefore gets "instant of the call plus the
    configured timeout" as its deadline.  The typed methods inherit this
    through their common tail. *)
Theorem invoke_nil_context (lib : Library) (env : InvokeEnv) (method : string)
    (args : list Any) (m : Machine) :
  reachable m ->
  let used := context_WithTimeout (now env) context_Background (timeout (client m)) in
  invoke_context env None m = Returns (Some used) m
  /\ ctx_deadline used = Some (now env + timeout (client m))
  /\ invoke env None method args m = invoke env (Some context_Background) method args m
  /\ (exists r m', invoke env None method args m = Returns r m')
  /\ (forall T R (to : JSONType T) (ret : T -> R) (none : R),
        exists r m', call to ret none env None method args m = Returns r m').
Proof.
  intros Hm used. apply reachable_connection_first in Hm.
  split; [reflexivity|]. split; [reflexivity|]. split; [reflexivity|]. split.
  - destruct (invoke_returns env None method args m Hm) as (r & m' & ? & _). eauto.
  - intros. by apply call_returns.
Qed.

Lemma invoke_nil_context_witness :
  let env := {| now := 100; reply := None; coin := false |} in
  reachable connected_machine
  /\ exists r m', invoke env None "RefreshCache" [] connected_machine = Returns r m'.
Proof.
  assert (reachable connected_machine) as Hm.
  { exists "http://localhost:5294/hub", [],
      [op_Connect (mkConnectEnv None None); op_state 0%nat ClientConnected].
    reflexivity. }
  split; [exact Hm|].
  apply (invoke_nil_context no_conversions
           {| now := 100; reply := None; coin := false |}
           "RefreshCache" [] connected_machine Hm).
Defined.

(** ** How a connected call ends *)

(** Which case of the [select] runs, in terms of the two instants. *)
Lemma select_recv env ctx res :
  select env ctx = Some (recv res) ->
  exists r, reply env = Some (r, res)
            /\ forall d err, ctx_done ctx = Some (d, err) ->
                             Z.max (now env) r <= Z.max (now env) d.
Proof.
  unfold select. destruct (reply env) as [[r res']|], (ctx_done ctx) as [[d err]|];
    cbn; intros Hs; simplify_eq/=; repeat (case_match; simplify_eq/=); try done;
    exists r; (split; [done|]); intros; simplify_eq; lia.
Qed.

Lemma select_done env ctx err :
  select env ctx = Some (done err) ->
  exists d, ctx_done ctx = Some (d, err)
            /\ forall r res, reply env = Some (r, res) ->
                             Z.max (now env) d <= Z.max (now env) r.
Proof.
  unfold select. destruct (reply env) as [[r res']|], (ctx_done ctx) as [[d err']|];
    cbn; intros Hs; simplify_eq/=; repeat (case_match; simplify_eq/=); try done;
    exists d; (split; [done|]); intros; simplify_eq; lia.
Qed.

Lemma ctx_done_err ctx d err :
  ctx_done ctx = Some (d, err) ->
  (err = context_DeadlineExceeded /\ ctx_deadline ctx = Some d)
  \/ (err = context_Canceled /\ ctx_canceledAt ctx = Some d).
Proof.
  unfold ctx_done. intros Hd. repeat (case_match; simplify_eq/=); eauto.
Qed.

Lemma invoke_wait_recv_error env ctx method res cause m :
  select env ctx = Some (recv res) -> Error_ res = Some cause ->
  exists m', invoke_wait env (Some ctx) method m
             = Returns (ANil, Some (Errorf_w_s_v ErrInvokeFailed method cause)) m'.
Proof. intros Hs He. unfold invoke_wait. rewrite Hs, He. go_run. eauto. Qed.

Lemma invoke_wait_recv_value env ctx method res m :
  select env ctx = Some (recv res) -> Error_ res = None ->
  invoke_wait env (Some ctx) method m = Returns (Value res, None) m.
Proof. intros Hs He. unfold invoke_wait. by rewrite Hs, He. Qed.

Lemma invoke_wait_done env ctx method err m :
  select env ctx = Some (done err) ->
  invoke_wait env (Some ctx) method m
  = Returns (ANil, Some (Errorf_w_s_v ErrConnectionTimeout method err)) m.
Proof. intros Hs. unfold invoke_wait. by rewrite Hs. Qed.

(** Claim C3, as the code has it.  A connected call waits on the context
    [used] and ends in exactly one of three ways, decided by the case of the
    [select] that runs.  The answer of the transport is received and carries
    an error: the call returns an error that wraps [ErrInvokeFailed] and
    names the method and the cause.  The context is done first, because its
    deadline elapsed or because the caller cancelled it: the call returns an
    error that wraps [ErrConnectionTimeout] and names the method and the
    context's error.  The answer is received without an error: the call
    returns its raw value and no error.  A case runs only if it was ready no
    later than the other. *)
Theorem invoke_classification (env : InvokeEnv) (ctx : option Context) (method : string)
    (args : list Any) (m : Machine) (h : nat) :
  connected (client m) = true ->
  connection (client m) = Some h ->
  exists (used : Context) (sel : Selected),
    invoke_context env ctx m = Returns (Some used) m
    /\ select env used = Some sel
    /\ match sel with
       | recv res =>
           (exists r, reply env = Some (r, res)
                      /\ forall d err, ctx_done used = Some (d, err) ->
                                       Z.max (now env) r <= Z.max (now env) d)
           /\ match Error_ res with
              | Some cause =>
                  exists e m',
                    invoke env ctx method args m = Returns (ANil, Some e) m'
                    /\ errors_Is e ErrInvokeFailed = true
                    /\ Error e = "hub method invocation failed: " +:+ method
                                 +:+ " - " +:+ Error cause
              | None =>
                  invoke env ctx method args m
                  = Returns (Value res, None) (submitted method args h m)
              end
       | done err =>
           (exists d, ctx_done used = Some (d, err)
                      /\ forall r res, reply env = Some (r, res) ->
                                       Z.max (now env) d <= Z.max (now env) r)
           /\ (err = context_DeadlineExceeded \/ err = context_Canceled)
           /\ exists e,
                invoke env ctx method args m
                = Returns (ANil, Some e) (submitted method args h m)
                /\ errors_Is e ErrConnectionTimeout = true
                /\ Error e = "connection timeout: " +:+ method
                             +:+ " - " +:+ Error err
       end.
Proof.
  intros Hc Hh.
  destruct (invoke_context_deadline env ctx m) as (used & Hctx & [dl Hdl]).
  destruct (select_deadline env used dl Hdl) as [sel Hsel].
  exists used, sel. split; [done|]. split; [done|].
  rewrite (invoke_connected env ctx method args m h (Some used)) by done.
  fold (submitted method args h m).
  destruct sel as [res|err].
  - split; [by apply select_recv|].
    destruct (Error_ res) as [cause|] eqn:He.
    + destruct (invoke_wait_recv_error env used method res cause
                  (submitted method args h m) Hsel He) as [m' Hm'].
      eexists _, m'. split; [done|]. done.
    + by apply invoke_wait_recv_value.
  - destruct (select_done env used err Hsel) as (d & Hd & Hle).
    split; [eauto|]. split.
    { destruct (ctx_done_err used d err Hd) as [[? _]|[? _]]; eauto. }
    eexists. split; [by apply invoke_wait_done|]. done.
Qed.

Lemma invoke_classification_witness :
  let res := {| Value := AString "ok"; Error_ := None |} in
  let env := {| now := 0; reply := Some (10, res); coin := false |} in
  connected (client connected_machine) = true
  /\ connection (client connected_machine) = Some 0%nat
  /\ exists (used : Context) (sel : Selected),
       invoke_context env None connected_machine = Returns (Some used) connected_machine
       /\ select env used = Some sel.
Proof.
  split; [reflexivity|]. split; [reflexivity|].
  destruct (invoke_classification
              {| now := 0; reply := Some (10, mkInvokeResult (AString "ok") None);
                 coin := false |}
              None "GetServiceStatus" [] connected_machine 0%nat eq_refl eq_refl)
    as (used & sel & H1 & H2 & _).
  exists used, sel. split; [exact H1 | exact H2].
Defined.

(** The claim as the spec words it takes the deadline to be the only way a
    wait ends without an answer.  Here the transport answers at instant 10
    without an error, the deadline lies 30 seconds ahead, and the caller
    cancels the context at instant 5: the call returns a
    [ErrConnectionTimeout] error and not the raw value. *)
Lemma invoke_cancelled_counterexample :
  let res := {| Value := AString "ok"; Error_ := None |} in
  let env := {| now := 0; reply := Some (10, res); coin := false |} in
  let ctx := {| ctx_deadline := None; ctx_canceledAt := Some 5 |} in
  connected (client connected_machine) = true
  /\ Error_ res = None
  /\ (exists used, invoke_context env (Some ctx) connected_machine
                   = Returns (Some used) connected_machine
                   /\ ctx_deadline used = Some 30000000000
                   /\ 10 < 30000000000)
  /\ invoke env (Some ctx) "GetServiceStatus" [] connected_machine
     = Returns (ANil, Some (Errorf "connection timeout: GetServiceStatus - context canceled"
                                   ErrConnectionTimeout))
         (submitted "GetServiceStatus" [] 0 connected_machine)
  /\ forall m', invoke env (Some ctx) "GetServiceStatus" [] connected_machine
                <> Returns (Value res, None) m'.
Proof.
  cbv zeta. split; [reflexivity|]. split; [reflexivity|]. split.
  { eexists. split; [reflexivity|]. split; [reflexivity|]. lia. }
  split; [reflexivity|].
  intros m' Hm'. vm_compute in Hm'. discriminate Hm'.
Qed.

(** ** Connect and Disconnect *)

Lemma Connect_connected env m :
  connected (client m) = true -> Connect env m = Returns None m.
Proof. intros Hc. unfold Connect. go_run. by rewrite Hc. Qed.

Lemma Disconnect_returns m :
  exists m', Disconnect m = Returns None m'
             /\ connected (client m') = false
             /\ connection (client m') = connection (client m)
             /\ length (transports (world m')) = length (transports (world m)).
Proof.
  unfold Disconnect, update_transport. go_run.
  destruct (connection (client m)) as [h|] eqn:Hh; cbn.
  - destruct (observeCancel (client m)); cbn;
      (eexists; split; [reflexivity|]; cbn; by rewrite ?length_alter).
  - eexists; split; [reflexivity|]. done.
Qed.

Lemma Disconnect_no_transport m :
  connection (client m) = None ->
  Disconnect m = Returns None {| client := set_connected false (client m); world := world m |}.
Proof. intros Hh. unfold Disconnect. go_run. by rewrite Hh. Qed.

(** Claim C5.  [Connect] called while the connected flag is true returns nil
    at once and changes nothing: no transport is created.  [Disconnect]
    returns nil in every state, also when the client has no transport, and
    leaves the flag false; calling it again does the same. *)
Theorem connect_disconnect_idempotent (env : ConnectEnv) (m : Machine) :
  (connected (client m) = true -> Connect env m = Returns None m)
  /\ (connection (client m) = None ->
      Disconnect m
      = Returns None {| client := set_connected false (client m); world := world m |})
  /\ exists m', Disconnect m = Returns None m'
                /\ connected (client m') = false
                /\ length (transports (world m')) = length (transports (world m))
                /\ exists m'', Disconnect m' = Returns None m''
                               /\ connected (client m'') = false
                               /\ length (transports (world m''))
                                  = length (transports (world m)).
Proof.
  split; [apply Connect_connected|]. split; [apply Disconnect_no_transport|].
  destruct (Disconnect_returns m) as (m' & H1 & H2 & _ & H3).
  destruct (Disconnect_returns m') as (m'' & H4 & H5 & _ & H6).
  exists m'. repeat (split; [done|]). exists m''. repeat (split; [done|]). congruence.
Qed.

Lemma connect_disconnect_idempotent_witness :
  connected (client connected_machine) = true
  /\ Connect (mkConnectEnv None None) connected_machine = Returns None connected_machine.
Proof.
  split; [reflexivity|].
  apply (connect_disconnect_idempotent (mkConnectEnv None None) connected_machine).
  reflexivity.
Defined.

Lemma errors_Is_refl e : errors_Is e e = true.
Proof. destruct e; cbn; by rewrite decide_True. Qed.

Lemma errors_Is_Errorf_w prefix e : errors_Is (Errorf_w prefix e) e = true.
Proof.
  unfold Errorf_w. cbn. case_decide; [done|]. apply errors_Is_refl.
Qed.

(** Claim C6.  When one of the two constructors behind the Transport Handle
    fails, [Connect] returns a non-nil error that wraps the failure, and the
    client is exactly as before: flag false, same [connection] field, same
    handler lists; no transport, no state channel and no goroutine was
    added. *)
Theorem connect_creation_failure (env : ConnectEnv) (m : Machine) (err : GoError) :
  connected (client m) = false ->
  NewHTTPConnection_err env = Some err
  \/ (NewHTTPConnection_err env = None /\ NewClient_err env = Some err) ->
  exists e m',
    Connect env m = Returns (Some e) m'
    /\ Unwrap e = Some err
    /\ errors_Is e err = true
    /\ client m' = client m
    /\ transports (world m') = transports (world m)
    /\ stateChans (world m') = stateChans (world m)
    /\ goroutines (world m') = goroutines (world m).
Proof.
  intros Hc Hfail. unfold Connect. go_run. rewrite Hc.
  destruct Hfail as [H1|[H1 H2]]; rewrite H1; [|rewrite H2]; cbn;
    (eexists _, _; split; [reflexivity|]);
    (split; [reflexivity|]); (split; [apply errors_Is_Errorf_w|]); done.
Qed.

Lemma connect_creation_failure_witness :
  let m := start "http://localhost:5294/hub" [] in
  let env := mkConnectEnv (Some (Foreign "dial tcp: connection refused")) None in
  connected (client m) = false
  /\ exists e m', Connect env m = Returns (Some e) m' /\ client m' = client m.
Proof.
  split; [reflexivity|].
  destruct (connect_creation_failure
              (mkConnectEnv (Some (Foreign "dial tcp: connection refused")) None)
              (start "http://localhost:5294/hub" [])
              (Foreign "dial tcp: connection refused") eq_refl (or_introl eq_refl))
    as (e & m' & H1 & _ & _ & H2 & _).
  exists e, m'. split; [exact H1 | exact H2].
Defined.

(** Two calls of [Connect] before the first transport reported
    [ClientConnected]: the flag is still false when the second call checks it,
    so a second transport and a second watch loop are started while the first
    ones are neither stopped nor reachable from the client any more.  (This is
    where claim C9 fails.) *)
Theorem connect_twice_two_transports :
  exists m,
    run [op_Connect (mkConnectEnv None None); op_Connect (mkConnectEnv None None)]
        (start "http://localhost:5294/hub" [])
    = Returns tt m
    /\ length (active_transports (world m)) = 2%nat
    /\ length (running_watchers (world m)) = 2%nat
    /\ connection (client m) = Some 1%nat
    /\ observeCancel (client m) = Some 1%nat.
Proof. eexists. split; [vm_compute; reflexivity|]. vm_compute. repeat split. Qed.

(** ** The watch loop on [ClientClosed] *)

Lemma omap_app {A B} (f : A -> option B) (l k : list A) :
  omap f (l ++ k) = omap f l ++ omap f k.
Proof.
  induction l as [|x l IH]; [done|]. cbn. destruct (f x); cbn; by rewrite IH.
Qed.

Lemma disconnect_dispatches_added w w' hs err :
  goroutines w' = goroutines w ++ map (fun hd => go_disconnect hd err) hs ->
  disconnect_dispatches w' = disconnect_dispatches w ++ map (fun hd => (hd, err)) hs.
Proof.
  intros Hg. unfold disconnect_dispatches. rewrite Hg, omap_app. f_equal. clear Hg.
  induction hs as [|hd hs IH]; [done|]. cbn. by rewrite IH.
Qed.

Lemma closed_error_some w h :
  exists err, closed_error w h = Some err
              /\ err = default ErrNotConnected (t ← transports w !! h; lastErr t).
Proof.
  unfold closed_error. destruct (transports w !! h ≫= _) as [e|]; cbn; eauto.
Qed.

(** Claim C4.  On [ClientClosed] the loop sets the connected flag to false
    and then starts one goroutine for every entry of the disconnect-handler
    list as it is when the list is copied, in registration order, each with
    the same error: the transport's last error, or [ErrNotConnected] when the
    transport has none.  The error is never nil.  The handler list itself is
    not changed. *)
Theorem closed_dispatch (m : Machine) (h : nat) :
  connection (client m) = Some h ->
  exists (err : GoError) (m' : Machine),
    err = default ErrNotConnected (t ← transports (world m) !! h; lastErr t)
    /\ watchStates_body ClientClosed m = Returns tt m'
    /\ connected (client m') = false
    /\ disconnectHandlers (client m') = disconnectHandlers (client m)
    /\ goroutines (world m')
       = goroutines (world m)
         ++ map (fun hd => go_disconnect hd (Some err)) (disconnectHandlers (client m))
    /\ disconnect_dispatches (world m')
       = disconnect_dispatches (world m)
         ++ map (fun hd => (hd, Some err)) (disconnectHandlers (client m))
    /\ (forall m1, connection (client m1) = Some h ->
          transports (world m1) = transports (world m) ->
          exists m1', watchStates_closed_notify m1 = Returns tt m1'
                      /\ client m1' = client m1
                      /\ disconnect_dispatches (world m1')
                         = disconnect_dispatches (world m1)
                           ++ map (fun hd => (hd, Some err))
                                  (disconnectHandlers (client m1))).
Proof.
  intros Hh. destruct (closed_error_some (world m) h) as (err & Herr & Hdef).
  exists err. eexists. split; [done|]. split.
  { unfold watchStates_body, watchStates_closed_mark.
    go_unfold. unfold assign, getClient, putClient. go_unfold.
    rewrite (watchStates_closed_notify_eq _ h) by done. reflexivity. }
  cbn [world client]. rewrite Herr. repeat (split; [done|]). split.
  { by apply disconnect_dispatches_added. }
  intros m1 Hh1 Hts. eexists. split; [by apply (watchStates_closed_notify_eq _ h)|].
  cbn [world client]. split; [done|]. apply disconnect_dispatches_added.
  replace (closed_error (world m1) h) with (Some err); [done|].
  rewrite <- Herr. unfold closed_error. by rewrite Hts.
Qed.

Lemma closed_dispatch_witness :
  let m := {| client := set_disconnectHandlers [7%nat; 8%nat] (client connected_machine);
              world := world connected_machine |} in
  connection (client m) = Some 0%nat
  /\ exists m', watchStates_body ClientClosed m = Returns tt m'
                /\ disconnect_dispatches (world m')
                   = [(7%nat, Some ErrNotConnected); (8%nat, Some ErrNotConnected)].
Proof.
  split; [reflexivity|].
  destruct (closed_dispatch
              {| client := set_disconnectHandlers [7%nat; 8%nat] (client connected_machine);
                 world := world connected_machine |} 0%nat eq_refl)
    as (err & m' & H1 & H2 & _ & _ & _ & H3 & _).
  exists m'. split; [exact H2|]. rewrite H3, H1. reflexivity.
Defined.

(** ** Round trips through JSON *)

Lemma toValidUTF8_from_valid skip s :
  ValidString_from skip s = true -> toValidUTF8_from skip s = s.
Proof.
  revert skip. induction s as [|b s IH]; intros [|k];
    cbn [ValidString_from toValidUTF8_from]; try done.
  - destruct (rune_width (String b s)); [done|]. intros Hv. by rewrite IH.
  - intros Hv. by rewrite IH.
Qed.

Lemma toValidUTF8_valid s : utf8_ValidString s = true -> toValidUTF8 s = s.
Proof. apply toValidUTF8_from_valid. Qed.

Lemma to_int_nonnil n :
  Z.to_int n <> Decimal.Pos Decimal.Nil /\ Z.to_int n <> Decimal.Neg Decimal.Nil.
Proof.
  destruct n as [|p|p]; cbn; split; try done;
    intros [= Hp]; by apply DecimalPos.Unsigned.to_uint_nonnil in Hp.
Qed.

Lemma ParseInt_FormatInt n : is_int n = true -> ParseInt (FormatInt n) = Some n.
Proof.
  intros Hn. unfold ParseInt, FormatInt.
  destruct (to_int_nonnil n) as [H1 H2].
  rewrite DecimalString.NilZero.isi by done.
  by rewrite DecimalZ.of_to, Hn.
Qed.

Lemma exact_bool : codec_exact json_bool (fun _ => True).
Proof. intros b _. by exists (JBool b). Qed.

Lemma exact_string : codec_exact json_string (fun s => utf8_ValidString s = true).
Proof. intros s Hs. exists (JString s). cbn. by rewrite toValidUTF8_valid. Qed.

Lemma exact_int : codec_exact json_int (fun n => is_int n = true).
Proof.
  intros n Hn. exists (JNumber (FormatInt n)). cbn. by rewrite ParseInt_FormatInt.
Qed.

Lemma exact_Time {lib : Library} : codec_exact json_Time Time_exact.
Proof.
  intros t (text & Hm & Hu). exists (JString text). cbn. by rewrite Hm, Hu.
Qed.

Lemma exact_slice {T} (elem : JSONType T) (ok : T -> Prop) :
  codec_exact elem ok -> codec_exact (json_slice elem) (slice_all ok).
Proof.
  intros Helem [xs|] Hok; [|by exists JNull].
  assert (exists js, mapM (marshal elem) xs = Ok js
                     /\ unmarshal_elements elem js [] = Ok xs) as (js & Hm & Hu).
  { induction Hok as [|x xs Hx _ (js & Hm & Hu)]; [by exists []|].
    destruct (Helem x Hx) as (j & Hj & Hj').
    exists (j :: js). cbn. rewrite Hj. cbn. rewrite Hm. cbn.
    split; [done|]. rewrite Hj'. cbn. by rewrite Hu. }
  exists (JArray js). cbn. rewrite Hm. cbn. split; [done|]. by rewrite Hu.
Qed.

Lemma map_insert_last {V} (k : string) (v : V) (m : list (string * V)) :
  Forall (fun kv => String.ltb kv.1 k = true) m ->
  map_insert k v m = m ++ [(k, v)].
Proof.
  induction 1 as [|[k' v'] m Hk _ IH]; [done|]. cbn in *.
  unfold String.ltb in Hk. rewrite String.compare_antisym.
  destruct (String.compare k' k); try done. cbn. by rewrite IH.
Qed.

Lemma keys_ascending_before {V} (acc : list (string * V)) kv rest :
  keys_ascending (acc ++ kv :: rest) = true ->
  Forall (fun e => String.ltb e.1 kv.1 = true) acc.
Proof.
  induction acc as [|[k v] acc IH]; cbn; [done|].
  intros [Hk Hacc]%andb_true_iff. constructor; [|by apply IH].
  rewrite forallb_app in Hk. apply andb_true_iff in Hk as [_ Hk].
  cbn in Hk. by apply andb_true_iff in Hk as [Hk _].
Qed.

(** Reading the members of an object written from a map in key order
    rebuilds the map entry by entry. *)
Lemma fold_insert_ascending {V} (dec : JSON -> Result V)
    (kjs : list (string * JSON)) (kvs acc : list (string * V)) :
  Forall2 (fun kj kv => kj.1 = kv.1 /\ dec kj.2 = Ok kv.2) kjs kvs ->
  keys_ascending (acc ++ kvs) = true ->
  Result_foldl (fun m kj => v ← dec kj.2; mret (map_insert kj.1 v m)) acc kjs
  = Ok (acc ++ kvs).
Proof.
  intros Hall. revert acc.
  induction Hall as [|[k j] [k' v] kjs kvs [Hk Hd] _ IH]; intros acc Hasc.
  - by rewrite app_nil_r.
  - cbn in *. subst k'. rewrite Hd. cbn.
    rewrite map_insert_last by (by eapply (keys_ascending_before acc (k, v))).
    rewrite (IH (acc ++ [(k, v)])); by rewrite <- app_assoc.
Qed.

Lemma Any_ind_nested (P : Any -> Prop) :
  P ANil -> (forall b, P (ABool b)) -> (forall n, P (AInt n)) ->
  (forall bits, P (AFloat64 bits)) -> (forall s, P (AString s)) ->
  (forall xs, Forall P xs -> P (ASlice xs)) ->
  (forall kvs, Forall (fun kv => P kv.2) kvs -> P (AMap kvs)) ->
  (forall ty, P (AUnsupported ty)) ->
  forall v, P v.
Proof.
  intros Hnil Hbool Hint Hfloat Hstring Hslice Hmap Hunsupported.
  fix IH 1.
  intros [ |b|n|bits|s|xs|kvs|ty];
    [apply Hnil|apply Hbool|apply Hint|apply Hfloat|apply Hstring| | |apply Hunsupported].
  - apply Hslice. induction xs as [|x xs IHxs]; constructor; [apply IH|exact IHxs].
  - apply Hmap. induction kvs as [|[k v] kvs IHkvs]; constructor; [apply IH|exact IHkvs].
Qed.

Lemma Any_exact_roundtrip {lib : Library} (v : Any) :
  Any_exact v -> exists j, marshal_Any v = Ok j /\ unmarshal_Any j = Ok v.
Proof.
  induction v as [ |b|n|bits|s|xs IH|kvs IH|ty] using Any_ind_nested; cbn; try done.
  - by exists JNull.
  - by exists (JBool b).
  - intros (lit & Hf & Hp). exists (JNumber lit). rewrite Hf. cbn. by rewrite Hp.
  - intros Hs. exists (JString s). by rewrite toValidUTF8_valid.
  - intros Hxs.
    assert (exists js, mapM marshal_Any xs = Ok js /\ mapM unmarshal_Any js = Ok xs)
      as (js & Hm & Hu).
    { induction IH as [|x xs Hx _ IHxs]; [by exists []|].
      destruct Hxs as [Hx' Hxs]. destruct (Hx Hx') as (j & Hj & Hj').
      destruct (IHxs Hxs) as (js & Hm & Hu).
      exists (j :: js). cbn. rewrite Hj. cbn. rewrite Hm. cbn.
      split; [done|]. rewrite Hj'. cbn. by rewrite Hu. }
    exists (JArray js). rewrite Hm. cbn. split; [done|]. by rewrite Hu.
  - intros [Hasc Hkvs].
    assert (exists kjs,
               mapM (fun kv => j ← marshal_Any kv.2; mret (toValidUTF8 kv.1, j)) kvs = Ok kjs
               /\ Forall2 (fun kj kv => kj.1 = kv.1 /\ unmarshal_Any kj.2 = Ok kv.2) kjs kvs)
      as (kjs & Hm & Hu).
    { clear Hasc. induction IH as [|[k x] kvs Hx _ IHkvs]; [by exists []|].
      destruct Hkvs as [[Hk Hx'] Hkvs]. destruct (Hx Hx') as (j & Hj & Hj').
      destruct (IHkvs Hkvs) as (kjs & Hm & Hu).
      exists ((k, j) :: kjs). cbn in *. rewrite Hj. cbn. rewrite Hm. cbn.
      rewrite toValidUTF8_valid by done. split; [done|]. by constructor. }
    exists (JObject kjs). rewrite Hm. cbn. split; [done|].
    by rewrite (fold_insert_ascending unmarshal_Any kjs kvs []).
Qed.

Lemma exact_map_Any {lib : Library} : codec_exact (json_map json_Any) map_exact.
Proof.
  intros [kvs|] Hok; [|by exists JNull].
  destruct (Any_exact_roundtrip (AMap kvs) Hok) as (j & Hm & Hu).
  destruct Hok as [Hasc _]. cbn in Hm.
  destruct (mapM _ kvs) as [kjs|] eqn:Hkjs; [|done]. cbn in Hm. simplify_eq.
  exists (JObject kjs). cbn in *. rewrite Hkjs. cbn. split; [done|].
  destruct (Result_foldl _ [] kjs) as [m|]; [|done].
  cbn in Hu. by simplify_eq.
Qed.

Lemma marshal_mk {T} z m u (v : T) : marshal (mkJSONType T z m u) v = m v.
Proof. reflexivity. Qed.

Lemma unmarshal_mk {T} z m u j (v : T) : unmarshal (mkJSONType T z m u) j v = u j v.
Proof. reflexivity. Qed.

#[local] Arguments marshal : simpl never.
#[local] Arguments unmarshal : simpl never.

(** The fact about one field, ready for rewriting. *)
Ltac field_fact H :=
  let j := fresh "j" in
  let Hm := fresh "Hm" in
  let Hu := fresh "Hu" in
  destruct H as (j & Hm & Hu); cbn in Hu.

(** A struct whose fields each come back: write it member by member, read
    it member by member. *)
Tactic Notation "struct_roundtrip" reference(ty) :=
  eexists; split;
  [ unfold ty; rewrite marshal_mk; unfold marshal_struct, member_omitempty, member; cbn;
    repeat (match goal with H : marshal _ _ = Ok _ |- _ => rewrite H; clear H end; cbn);
    reflexivity
  | unfold ty; rewrite unmarshal_mk; unfold unmarshal_struct, field; cbn;
    repeat (match goal with H : unmarshal _ _ _ = Ok _ |- _ => rewrite H; clear H end; cbn);
    reflexivity ].

Lemma exact_ChallengeBundleSchedule :
  codec_exact json_ChallengeBundleSchedule ChallengeBundleSchedule_exact.
Proof.
  intros [t q] [Ht Hq]. cbn in *.
  field_fact (exact_string t Ht). field_fact (exact_string q Hq).
  struct_roundtrip json_ChallengeBundleSchedule.
Qed.

Lemma exact_BundleCompletionReward :
  codec_exact json_BundleCompletionReward BundleCompletionReward_exact.
Proof.
  intros [t q] [Ht Hq]. cbn in *.
  field_fact (exact_string t Ht). field_fact (exact_int q Hq).
  struct_roundtrip json_BundleCompletionReward.
Qed.

Lemma exact_ChallengeBundleReward :
  codec_exact json_ChallengeBundleReward ChallengeBundleReward_exact.
Proof.
  intros [t q] [Ht Hq]. cbn in *.
  field_fact (exact_string t Ht). field_fact (exact_int q Hq).
  struct_roundtrip json_ChallengeBundleReward.
Qed.

Lemma exact_ChallengeBundleOptions :
  codec_exact json_ChallengeBundleOptions (fun _ => True).
Proof.
  intros [b1 b2 b3 b4 b5 b6 b7] _.
  field_fact (exact_bool b1 I). field_fact (exact_bool b2 I).
  field_fact (exact_bool b3 I). field_fact (exact_bool b4 I).
  field_fact (exact_bool b5 I). field_fact (exact_bool b6 I).
  field_fact (exact_bool b7 I).
  struct_roundtrip json_ChallengeBundleOptions.
Qed.

Lemma exact_ChallengeBundleObjective :
  codec_exact json_ChallengeBundleObjective ChallengeBundleObjective_exact.
Proof.
  intros [name count stage] (Hn & Hc & Hs). cbn in *.
  field_fact (exact_string name Hn). field_fact (exact_int count Hc).
  destruct stage as [|p|p].
  - struct_roundtrip json_ChallengeBundleObjective.
  - field_fact (exact_int (Z.pos p) Hs).
    struct_roundtrip json_ChallengeBundleObjective.
  - field_fact (exact_int (Z.neg p) Hs).
    struct_roundtrip json_ChallengeBundleObjective.
Qed.

Lemma exact_ChallengeBundleObject :
  codec_exact json_ChallengeBundleObject ChallengeBundleObject_exact.
Proof.
  intros [q r rs os opts] (Hq & Hr & Hrs & Hos). cbn in *.
  field_fact (exact_string q Hq). field_fact (exact_string r Hr).
  field_fact (exact_slice _ _ exact_ChallengeBundleReward rs Hrs).
  field_fact (exact_slice _ _ exact_ChallengeBundleObjective os Hos).
  field_fact (exact_ChallengeBundleOptions opts I).
  struct_roundtrip json_ChallengeBundleObject.
Qed.

Lemma exact_AthenaChallengeBundle :
  codec_exact json_AthenaChallengeBundle AthenaChallengeBundle_exact.
Proof.
  intros [t s objs a r crs] (Ht & Hs & Hobjs & Ha & Hr & Hcrs). cbn in *.
  field_fact (exact_string t Ht). field_fact (exact_string s Hs).
  field_fact (exact_slice _ _ exact_ChallengeBundleObject objs Hobjs).
  field_fact (exact_int a Ha). field_fact (exact_string r Hr).
  field_fact (exact_slice _ _ exact_BundleCompletionReward crs Hcrs).
  struct_roundtrip json_AthenaChallengeBundle.
Qed.

Lemma exact_ReadyStatus : codec_exact json_ReadyStatus ReadyStatus_exact.
Proof.
  intros [i ver r] Hok. unfold ReadyStatus_exact in Hok. cbn in Hok.
  field_fact (exact_bool i I). field_fact (exact_string ver Hok).
  destruct r.
  - field_fact (exact_bool true I). struct_roundtrip json_ReadyStatus.
  - struct_roundtrip json_ReadyStatus.
Qed.

Section WithLibrary.
Context {lib : Library}.

Lemma exact_BaseQuest : codec_exact json_BaseQuest BaseQuest_exact.
Proof.
  intros [os rs c] (Hos & Hrs & Hc). cbn in *.
  field_fact (exact_map_Any os Hos). field_fact (exact_map_Any rs Hrs).
  field_fact (exact_int c Hc).
  struct_roundtrip json_BaseQuest.
Qed.

Lemma exact_ServiceStatus : codec_exact json_ServiceStatus ServiceStatus_exact.
Proof.
  intros [i ver t] (Hver & Ht). cbn in *.
  field_fact (exact_bool i I). field_fact (exact_string ver Hver).
  field_fact (exact_Time t Ht).
  struct_roundtrip json_ServiceStatus.
Qed.

Lemma exact_CacheResult : codec_exact json_CacheResult CacheResult_exact.
Proof.
  intros [s ver k ps t] (Hver & Hk & Hne & Hps & Ht). cbn in *.
  field_fact (exact_bool s I). field_fact (exact_string ver Hver).
  field_fact (exact_int k Hk). field_fact (exact_Time t Ht).
  destruct ps as [[|p ps]|]; [done| |].
  - field_fact (exact_slice _ _ exact_string (Some (p :: ps)) Hps).
    struct_roundtrip json_CacheResult.
  - struct_roundtrip json_CacheResult.
Qed.

End WithLibrary.

Lemma codec_exact_roundtrips {T} (ty : JSONType T) (ok : T -> Prop) (v : T) :
  codec_exact ty ok -> ok v -> roundtrips ty v.
Proof.
  intros Hty Hv. destruct (Hty v Hv) as (j & Hm & Hu).
  unfold roundtrips, unmarshalResult. by rewrite Hm, Hu.
Qed.

(** * Further properties of the client *)

(** ** Construction *)

Lemma ClientOption_apply_fields opt c :
  connection (ClientOption_apply opt c) = connection c
  /\ url (ClientOption_apply opt c) = url c
  /\ connected (ClientOption_apply opt c) = connected c
  /\ readyHandlers (ClientOption_apply opt c) = readyHandlers c
  /\ disconnectHandlers (ClientOption_apply opt c) = disconnectHandlers c
  /\ observeCancel (ClientOption_apply opt c) = observeCancel c.
Proof. by destruct opt. Qed.

Lemma options_url opts c :
  url (foldl (fun c opt => ClientOption_apply opt c) c opts) = url c.
Proof.
  revert c. induction opts as [|opt opts IH]; intros c; [done|].
  cbn. rewrite IH. apply ClientOption_apply_fields.
Qed.

Lemma options_without_timeout opts c :
  Forall (fun opt => opt = WithLogger) opts ->
  timeout (foldl (fun c opt => ClientOption_apply opt c) c opts) = timeout c.
Proof.
  intros Hopts. revert c. induction Hopts as [|opt opts -> _ IH]; intros c; [done|].
  cbn. by rewrite IH.
Qed.

(** X1.  [NewClient] yields a client for the given URL that is not
    connected, has no transport and no handlers.  Its timeout is 30 seconds
    unless a [WithTimeout] option is given, and then the last one given
    counts. *)
Theorem NewClient_options (url_ : string) (opts rest : list ClientOption) (t : Z) :
  Forall (fun opt => opt = WithLogger) rest ->
  url (NewClient url_ (opts ++ rest)) = url_
  /\ connection (NewClient url_ (opts ++ rest)) = None
  /\ connected (NewClient url_ (opts ++ rest)) = false
  /\ readyHandlers (NewClient url_ (opts ++ rest)) = []
  /\ disconnectHandlers (NewClient url_ (opts ++ rest)) = []
  /\ timeout (NewClient url_ rest) = 30 * time_Second
  /\ timeout (NewClient url_ (opts ++ WithTimeout t :: rest)) = t.
Proof.
  intros Hrest.
  destruct (NewClient_fresh url_ (opts ++ rest)) as (H1 & H2 & H3 & H4 & _).
  split; [apply options_url|]. repeat (split; [done|]). split.
  - unfold NewClient. by rewrite options_without_timeout.
  - unfold NewClient. rewrite foldl_app. cbn. by rewrite options_without_timeout.
Qed.

Lemma NewClient_options_witness :
  Forall (fun opt => opt = WithLogger) [WithLogger]
  /\ timeout (NewClient "http://localhost:5294/hub"
                ([WithTimeout 5] ++ WithTimeout (10 * time_Second) :: [WithLogger]))
     = 10 * time_Second.
Proof.
  assert (Forall (fun opt => opt = WithLogger) [WithLogger]) as H
    by (constructor; [reflexivity | constructor]).
  split; [exact H|].
  apply (NewClient_options "http://localhost:5294/hub" [WithTimeout 5] [WithLogger]
           (10 * time_Second) H).
Defined.

(** ** Registration and dispatch *)

Lemma OnDisconnect_eq hd m :
  OnDisconnect hd m =
  Returns tt {| client := set_disconnectHandlers (disconnectHandlers (client m) ++ [hd])
                                                 (client m);
                world := world m |}.
Proof. reflexivity. Qed.

Lemma OnReady_eq hd m :
  OnReady hd m =
  Returns tt {| client := set_readyHandlers (readyHandlers (client m) ++ [hd]) (client m);
                world := world m |}.
Proof. reflexivity. Qed.

Lemma watchStates_body_closed_eq m h :
  connection (client m) = Some h ->
  let err := closed_error (world m) h in
  watchStates_body ClientClosed m =
  Returns tt
    {| client := set_connected false (client m);
       world := set_goroutines
                  (goroutines (world m)
                   ++ map (fun hd => go_disconnect hd err) (disconnectHandlers (client m)))
                  (set_logged
                     (logged (world m)
                      ++ [mkLogEntry LInfo "Disconnected from Hub: %v"
                                     [from_option Error "<nil>" err]])
                     (world m)) |}.
Proof.
  intros Hh. unfold watchStates_body, watchStates_closed_mark.
  go_unfold. unfold assign, getClient, putClient. go_unfold.
  by rewrite (watchStates_closed_notify_eq _ h).
Qed.



Lemma ready_dispatches_added w w' hs status :
  goroutines w' = goroutines w ++ map (fun hd => go_ready hd status) hs ->
  ready_dispatches w' = ready_dispatches w ++ map (fun hd => (hd, status)) hs.
Proof.
  intros Hg. unfold ready_dispatches. rewrite Hg, omap_app. f_equal. clear Hg.
  induction hs as [|hd hs IH]; [done|]. cbn. by rewrite IH.
Qed.

(** X3.  A Ready message starts one goroutine per registered ready handler,
    in registration order, each with the status received.  It does so in every
    state of the client, changes nothing of the client (in particular not the
    connected flag) and starts no disconnect handler. *)
Theorem Ready_dispatch (status : ReadyStatus) (m : Machine) :
  exists m',
    Ready status m = Returns tt m'
    /\ client m' = client m
    /\ transports (world m') = transports (world m)
    /\ ready_dispatches (world m')
       = ready_dispatches (world m)
         ++ map (fun hd => (hd, status)) (readyHandlers (client m))
    /\ disconnect_dispatches (world m') = disconnect_dispatches (world m).
Proof.
  eexists. split; [apply Ready_eq|]. cbn [world client].
  repeat (split; [done|]). split.
  - by apply ready_dispatches_added.
  - unfold disconnect_dispatches. cbn. rewrite omap_app.
    rewrite <- (app_nil_r (omap _ (goroutines (world m)))) at 2. f_equal.
    induction (readyHandlers (client m)) as [|hd hs IH]; [done|]. exact IH.
Qed.

(** ** The watch loop over a run of states *)

Lemma watched_app w gs :
  omap (fun g => match g with go_watchStates ch => Some ch | _ => None end)
       (goroutines w ++ gs)
  = watched w
    ++ omap (fun g => match g with go_watchStates ch => Some ch | _ => None end) gs.
Proof. unfold watched. by rewrite omap_app. Qed.

Lemma watched_unchanged w w' :
  goroutines w' = goroutines w -> watched w' = watched w.
Proof. unfold watched. by intros ->. Qed.

Lemma watched_disconnects w w' hs err :
  goroutines w' = goroutines w ++ map (fun hd => go_disconnect hd err) hs ->
  watched w' = watched w.
Proof.
  intros Hg. unfold watched at 1. rewrite Hg, watched_app.
  rewrite <- (app_nil_r (watched w)) at 2. f_equal. clear Hg.
  induction hs as [|hd hs IH]; [done|]. exact IH.
Qed.

Lemma watched_readies w w' hs status :
  goroutines w' = goroutines w ++ map (fun hd => go_ready hd status) hs ->
  watched w' = watched w.
Proof.
  intros Hg. unfold watched at 1. rewrite Hg, watched_app.
  rewrite <- (app_nil_r (watched w)) at 2. f_equal. clear Hg.
  induction hs as [|hd hs IH]; [done|]. exact IH.
Qed.


Lemma watchStates_body_step (state : ClientState) (m : Machine) (h : nat) :
  connection (client m) = Some h ->
  exists m1,
    watchStates_body state m = Returns tt m1
    /\ connected (client m1) = observed (connected (client m)) state
    /\ connection (client m1) = Some h
    /\ observeCancel (client m1) = observeCancel (client m)
    /\ disconnectHandlers (client m1) = disconnectHandlers (client m)
    /\ readyHandlers (client m1) = readyHandlers (client m)
    /\ transports (world m1) = transports (world m)
    /\ stateChans (world m1) = stateChans (world m)
    /\ disconnect_dispatches (world m1)
       = disconnect_dispatches (world m)
         ++ notified (disconnectHandlers (client m)) (closed_error (world m) h) state
    /\ watched (world m1) = watched (world m).
Proof.
  intros Hh. destruct state.
  - exists m. cbn. by rewrite app_nil_r.
  - exists m. cbn. by rewrite app_nil_r.
  - eexists. split; [reflexivity|]. cbn. by rewrite app_nil_r.
  - eexists. split; [by apply (watchStates_body_closed_eq _ h)|].
    cbn [world client]. repeat (split; [done|]). split.
    + by apply disconnect_dispatches_added.
    + by eapply watched_disconnects.
Qed.

(** X4.  After the watch loop handled a run of states, the connected flag
    is what the last [ClientConnected] or [ClientClosed] of the run says (and
    unchanged if the run has neither); every [ClientClosed] of the run started
    every registered disconnect handler once, in order; the transport, the
    handler lists and the state channels are as before. *)
Theorem watchStates_run (states : list ClientState) (m : Machine) (h : nat) :
  connection (client m) = Some h ->
  exists m',
    watchStates states m = Returns tt m'
    /\ connected (client m') = foldl observed (connected (client m)) states
    /\ connection (client m') = Some h
    /\ disconnectHandlers (client m') = disconnectHandlers (client m)
    /\ readyHandlers (client m') = readyHandlers (client m)
    /\ transports (world m') = transports (world m)
    /\ stateChans (world m') = stateChans (world m)
    /\ disconnect_dispatches (world m')
       = disconnect_dispatches (world m)
         ++ List.concat (map (notified (disconnectHandlers (client m))
                                       (closed_error (world m) h)) states).
Proof.
  revert m. induction states as [|state states IH]; intros m Hh.
  - exists m. cbn. by rewrite app_nil_r.
  - destruct (watchStates_body_step state m h Hh)
      as (m1 & Hb & Hc & Hh1 & _ & Hd & Hr & Ht & Hs & Hn & _).
    destruct (IH m1 Hh1) as (m' & Hw & Hc' & Hh' & Hd' & Hr' & Ht' & Hs' & Hn').
    exists m'. split.
    { unfold watchStates in *. cbn [range]. go_unfold. by rewrite Hb. }
    cbn [foldl map List.concat]. rewrite Hc', Hc. split; [done|]. split; [done|].
    split; [congruence|]. split; [congruence|]. split; [congruence|].
    split; [congruence|].
    rewrite Hn', Hn, Hd. unfold closed_error. rewrite Ht. by rewrite <- app_assoc.
Qed.

Lemma watchStates_run_witness :
  connection (client connected_machine) = Some 0%nat
  /\ exists m',
       watchStates [ClientClosed; ClientConnecting; ClientConnected] connected_machine
       = Returns tt m'
       /\ connected (client m') = true.
Proof.
  split; [reflexivity|].
  destruct (watchStates_run [ClientClosed; ClientConnecting; ClientConnected]
              connected_machine 0%nat eq_refl) as (m' & H1 & H2 & _).
  exists m'. split; [exact H1 | exact H2].
Defined.

(** ** A successful Connect *)

Lemma Connect_success_eq env m :
  connected (client m) = false ->
  NewHTTPConnection_err env = None ->
  NewClient_err env = None ->
  let h := length (transports (world m)) in
  let ch := length (stateChans (world m)) in
  Connect env m =
  Returns None
    {| client := set_observeCancel (Some ch) (set_connection (Some h) (client m));
       world :=
         {| httpConnections := S (httpConnections (world m));
            transports := alter Transport_Start h (transports (world m) ++ [Transport_new]);
            stateChans := stateChans (world m) ++ [mkStateChan h false];
            goroutines := goroutines (world m) ++ [go_watchStates ch];
            logged := logged (world m)
                      ++ [mkLogEntry LInfo "Connecting to Hub at %s" [url (client m)]] |} |}.
Proof.
  intros Hc H1 H2. unfold Connect, signalr_NewClient, on_connection, ObserveStateChanged,
    update_transport. go_run. by rewrite Hc, H1, H2.
Qed.

Lemma alter_new_transport (ts : list Transport) :
  alter Transport_Start (length ts) (ts ++ [Transport_new])
  = ts ++ [Transport_Start Transport_new].
Proof.
  induction ts as [|t ts IH]; [done|]. cbn. by rewrite IH.
Qed.

(** X5.  A [Connect] that finds the flag false and whose constructors
    succeed returns nil after installing one new transport, started, observed
    by one new open state channel that one new watch goroutine consumes.  It
    does not wait for the connection: the flag is still false when it returns,
    and a call made right away is refused with [ErrNotConnected] without
    reaching the transport. *)
Theorem Connect_success (env : ConnectEnv) (m : Machine) (ienv : InvokeEnv)
    (ctx : option Context) (method : string) (args : list Any) :
  connected (client m) = false ->
  NewHTTPConnection_err env = None ->
  NewClient_err env = None ->
  exists m',
    Connect env m = Returns None m'
    /\ connection (client m') = Some (length (transports (world m)))
    /\ observeCancel (client m') = Some (length (stateChans (world m)))
    /\ transports (world m') = transports (world m) ++ [Transport_Start Transport_new]
    /\ stateChans (world m')
       = stateChans (world m) ++ [mkStateChan (length (transports (world m))) false]
    /\ goroutines (world m')
       = goroutines (world m) ++ [go_watchStates (length (stateChans (world m)))]
    /\ connected (client m') = false
    /\ disconnectHandlers (client m') = disconnectHandlers (client m)
    /\ readyHandlers (client m') = readyHandlers (client m)
    /\ invoke ienv ctx method args m' = Returns (ANil, Some ErrNotConnected) m'.
Proof.
  intros Hc H1 H2. eexists. split; [by apply Connect_success_eq|].
  cbn [world client transports stateChans goroutines].
  rewrite alter_new_transport. repeat (split; [done|]).
  by apply invoke_disconnected.
Qed.

Lemma Connect_success_witness :
  let m := start "http://localhost:5294/hub" [] in
  connected (client m) = false
  /\ exists m', Connect (mkConnectEnv None None) m = Returns None m'
                /\ connected (client m') = false
                /\ transports (world m') = [Transport_Start Transport_new].
Proof.
  split; [reflexivity|].
  destruct (Connect_success (mkConnectEnv None None) (start "http://localhost:5294/hub" [])
              (mkInvokeEnv 0 None false) None "GetServiceStatus" []
              eq_refl eq_refl eq_refl)
    as (m' & H1 & _ & _ & H2 & _ & _ & H3 & _).
  exists m'. split; [exact H1|]. split; [exact H3 | exact H2].
Defined.

(** ** What every reachable state satisfies *)

Lemma invoke_wait_frame env ctx method m :
  is_Some (ctx_deadline ctx) ->
  exists r m', invoke_wait env (Some ctx) method m = Returns r m'
               /\ client m' = client m
               /\ transports (world m') = transports (world m)
               /\ stateChans (world m') = stateChans (world m)
               /\ goroutines (world m') = goroutines (world m).
Proof.
  intros [d Hd]. destruct (select_deadline env ctx d Hd) as [sel Hsel].
  unfold invoke_wait. rewrite Hsel.
  destruct sel as [res|err]; [destruct (Error_ res)|]; go_run; eauto 10.
Qed.

(** A connected call hands exactly one call to the client's transport and
    touches nothing else but the log. *)
Lemma invoke_frame env ctx method args m h :
  connected (client m) = true ->
  connection (client m) = Some h ->
  exists r m', invoke env ctx method args m = Returns r m'
               /\ client m' = client m
               /\ transports (world m')
                  = alter (Transport_Invoke method args) h (transports (world m))
               /\ stateChans (world m') = stateChans (world m)
               /\ goroutines (world m') = goroutines (world m).
Proof.
  intros Hc Hh.
  destruct (invoke_context_deadline env ctx m) as (ctx' & Hctx & Hd).
  rewrite (invoke_connected _ _ _ _ _ h (Some ctx')) by done.
  match goal with |- context [invoke_wait _ _ _ ?m1] =>
    destruct (invoke_wait_frame env ctx' method m1 Hd) as (r & m' & -> & ? & ? & ? & ?) end.
  eauto 10.
Qed.

Lemma Disconnect_eq m :
  Disconnect m =
  match connection (client m) with
  | None => Returns None {| client := set_connected false (client m); world := world m |}
  | Some h =>
      let chans := match observeCancel (client m) with
                   | Some ch => alter StateChan_close ch (stateChans (world m))
                   | None => stateChans (world m)
                   end in
      Returns None
        {| client := set_connected false (set_observeCancel None (client m));
           world := {| httpConnections := httpConnections (world m);
                       transports := alter Transport_Stop h (transports (world m));
                       stateChans := chans;
                       goroutines := goroutines (world m);
                       logged := logged (world m)
                                 ++ [mkLogEntry LInfo "Disconnected from Hub" []] |} |}
  end.
Proof.
  unfold Disconnect, update_transport. go_run.
  destruct m as [[conn u t c rh dh oc] w]. cbn.
  destruct conn; [|done]. by destruct oc.
Qed.

Lemma well_connected_step op m m' :
  step op m = Returns tt m' -> well_connected m -> well_connected m'.
Proof.
  intros Hs Hwc. pose proof Hwc as (Hconn & Hobs & Hwatch & Hfirst).
  destruct op as [env| |hd|hd|env ctx method args|stateCh state|status]; cbn in Hs.
  - (* Connect *)
    revert Hs. go_unfold.
    destruct (connected (client m)) eqn:Hc.
    { rewrite Connect_connected by done. by intros [= <-]. }
    destruct (NewHTTPConnection_err env) as [e|] eqn:H1;
      [|destruct (NewClient_err env) as [e|] eqn:H2].
    + unfold Connect. go_run. rewrite Hc, H1. cbn. intros [= <-]. exact Hwc.
    + unfold Connect. go_run. rewrite Hc, H1, H2. cbn. intros [= <-]. exact Hwc.
    + rewrite Connect_success_eq by done. intros [= <-].
      unfold well_connected. cbn [world client transports stateChans goroutines].
      split; [|split; [|split]].
      * intros h [= <-]. rewrite length_alter, length_app. cbn. lia.
      * intros ch [= <-]. eexists. split; [reflexivity|].
        rewrite lookup_app_r by lia. by rewrite Nat.sub_diag.
      * unfold watched. cbn [goroutines]. rewrite omap_app. cbn.
        fold (watched (world m)). rewrite Hwatch, length_app. cbn.
        by rewrite seq_app.
      * done.
  - (* Disconnect *)
    revert Hs. go_unfold. rewrite Disconnect_eq.
    destruct (connection (client m)) as [h|] eqn:Hh.
    + cbn. intros [= <-]. unfold well_connected.
      cbn [world client transports stateChans goroutines].
      split; [|split; [|split]].
      * intros h' Hh'. cbn in Hh'. rewrite length_alter. apply Hconn. congruence.
      * intros ch Hch. cbn in Hch. done.
      * unfold watched in *. cbn [goroutines]. rewrite Hwatch.
        destruct (observeCancel (client m)); by rewrite ?length_alter.
      * intros Hn. cbn in Hn. congruence.
    + intros [= <-]. unfold well_connected. cbn [world client].
      destruct (Hfirst eq_refl) as [Hf1 Hf2].
      split; [|split; [|split]].
      * intros h' Hh'. cbn in Hh'. congruence.
      * intros ch Hch. cbn in Hch. destruct (Hobs ch Hch) as (h' & Hh' & _).
        congruence.
      * done.
      * intros _. split; [reflexivity|done].
  - (* OnReady *)
    rewrite OnReady_eq in Hs. injection Hs as <-. exact Hwc.
  - (* OnDisconnect *)
    rewrite OnDisconnect_eq in Hs. injection Hs as <-. exact Hwc.
  - (* invoke *)
    revert Hs. go_unfold.
    destruct (connected (client m)) eqn:Hc.
    + destruct (connection (client m)) as [h|] eqn:Hh;
        [|destruct (Hfirst eq_refl); congruence].
      destruct (invoke_frame env ctx method args m h Hc Hh)
        as (r & m1 & -> & Hcl & Hts & Hchs & Hgs).
      intros [= <-]. unfold well_connected.
      rewrite Hcl, Hts, Hchs, (watched_unchanged _ _ Hgs), length_alter. done.
    + rewrite invoke_disconnected by done. by intros [= <-].
  - (* a state reaches a watch loop *)
    revert Hs. unfold getWorld. go_unfold.
    destruct (is_open (world m) stateCh) eqn:Hopen; [|by intros [= <-]].
    destruct (connection (client m)) as [h|] eqn:Hh.
    + destruct (watchStates_body_step state m h Hh)
        as (m1 & -> & Hc & Hh1 & Ho & Hd & Hr & Ht & Hs & Hn & Hw).
      intros [= <-]. unfold well_connected. rewrite Hh1, Ho, Ht, Hs.
      split; [|split; [|split]]; [..|done].
      * intros h' [= <-]. by apply Hconn.
      * intros ch Hch. destruct (Hobs ch Hch) as (h' & Hh' & Hl). exists h'.
        split; [congruence|done].
      * by rewrite Hw.
    + destruct (Hfirst eq_refl) as [_ Hch]. by rewrite is_open_nil in Hopen.
  - (* Ready *)
    rewrite Ready_eq in Hs. injection Hs as <-. unfold well_connected.
    cbn [world client transports stateChans].
    rewrite (watched_readies (world m) _ (readyHandlers (client m)) status) by done.
    done.
Qed.

Lemma well_connected_run ops m m' :
  run ops m = Returns tt m' -> well_connected m -> well_connected m'.
Proof.
  revert m. induction ops as [|op ops IH]; intros m.
  - cbn. go_run. intros [= <-]. done.
  - rewrite run_cons. destruct (step op m) as [[] m1| |] eqn:Hs; try done.
    intros Hr Hinv. eapply IH; [done|]. by eapply well_connected_step.
Qed.

Lemma well_connected_start url_ opts : well_connected (start url_ opts).
Proof.
  destruct (NewClient_fresh url_ opts) as (H1 & H2 & _ & _ & H5).
  unfold well_connected, start. cbn [world client]. rewrite H1, H2, H5.
  repeat split; done.
Qed.

Lemma Connect_returns env m : exists e m', Connect env m = Returns e m'.
Proof.
  destruct (connected (client m)) eqn:Hc.
  { rewrite Connect_connected by done. eauto. }
  destruct (NewHTTPConnection_err env) as [e|] eqn:H1;
    [|destruct (NewClient_err env) as [e|] eqn:H2].
  - unfold Connect. go_run. rewrite Hc, H1. cbn. eauto.
  - unfold Connect. go_run. rewrite Hc, H1, H2. cbn. eauto.
  - rewrite Connect_success_eq by done. eauto.
Qed.


(** X6.  In every state a client can reach, its references hang together:
    the [connection] field names an existing transport, the cancel function
    kept in [observeCancel] belongs to an open state channel registered with
    that very transport, every state channel made so far has exactly one
    watch goroutine, and the flag is false as long as no transport was ever
    installed. *)
Theorem reachable_well_connected (m : Machine) :
  reachable m -> well_connected m.
Proof.
  intros (url_ & opts & ops & Hrun).
  eapply well_connected_run; [exact Hrun|]. apply well_connected_start.
Qed.

Lemma reachable_well_connected_witness :
  reachable connected_machine /\ well_connected connected_machine.
Proof.
  assert (reachable connected_machine) as Hm.
  { exists "http://localhost:5294/hub", [],
      [op_Connect (mkConnectEnv None None); op_state 0%nat ClientConnected].
    reflexivity. }
  split; [exact Hm|]. exact (reachable_well_connected connected_machine Hm).
Defined.

(** X7.  In every state a client can reach, whatever happens next returns:
    no API call, no state handled by a watch loop and no Ready message
    panics on a nil transport or blocks forever.  In particular [invoke]
    returns for every context, with or without deadline. *)
Theorem reachable_never_stuck (m : Machine) (op : Op) :
  reachable m -> exists m', step op m = Returns tt m'.
Proof.
  intros (url_ & opts & ops & Hrun).
  assert (well_connected m) as (Hconn & Hobs & Hwatch & Hfirst).
  { eapply well_connected_run; [exact Hrun|]. apply well_connected_start. }
  destruct op as [env| |hd|hd|env ctx method args|stateCh state|status]; cbn.
  - go_unfold. destruct (Connect_returns env m) as (e & m' & ->). eauto.
  - go_unfold. rewrite Disconnect_eq. destruct (connection (client m)); eauto.
  - rewrite OnReady_eq. eauto.
  - rewrite OnDisconnect_eq. eauto.
  - go_unfold.
    destruct (invoke_returns env ctx method args m Hfirst) as (r & m' & -> & _). eauto.
  - unfold getWorld. go_unfold.
    destruct (is_open (world m) stateCh) eqn:Hopen; [|eauto].
    destruct (connection (client m)) as [h|] eqn:Hh.
    + destruct (watchStates_body_step state m h Hh) as (m1 & -> & _). eauto.
    + destruct (Hfirst eq_refl) as [_ Hch]. by rewrite is_open_nil in Hopen.
  - rewrite Ready_eq. eauto.
Qed.

Lemma reachable_never_stuck_witness :
  reachable connected_machine
  /\ exists m', step (op_state 0 ClientClosed) connected_machine = Returns tt m'.
Proof.
  assert (reachable connected_machine) as Hm.
  { exists "http://localhost:5294/hub", [],
      [op_Connect (mkConnectEnv None None); op_state 0%nat ClientConnected].
    reflexivity. }
  split; [exact Hm|].
  exact (reachable_never_stuck connected_machine (op_state 0 ClientClosed) Hm).
Defined.

(** ** Disconnect with a transport *)



(** ** More on invoke *)

Lemma transport_calls_alter method args (ts : list Transport) (h : nat) (t : Transport) :
  ts !! h = Some t ->
  length (List.concat (map invoked (alter (Transport_Invoke method args) h ts)))
  = S (length (List.concat (map invoked ts))).
Proof.
  revert h. induction ts as [|t0 ts IH]; intros [|h] Hl; try done.
  - cbn in *. rewrite !length_app. cbn. lia.
  - cbn in *. rewrite !length_app. by rewrite (IH h Hl).
Qed.

(** X9.  A call made while connected is handed to the client's transport
    exactly once, with the method name and the arguments as given, before the
    wait begins and whatever the wait ends in (an answer, an elapsed deadline,
    a context that was cancelled or had expired before the call).  No other
    transport receives anything, and the client, the channels and the
    goroutines are untouched. *)
Theorem invoke_submits_once (env : InvokeEnv) (ctx : option Context) (method : string)
    (args : list Any) (m : Machine) (h : nat) (t : Transport) :
  connected (client m) = true ->
  connection (client m) = Some h ->
  transports (world m) !! h = Some t ->
  exists r m',
    invoke env ctx method args m = Returns r m'
    /\ (exists t', transports (world m') !! h = Some t'
                   /\ invoked t' = invoked t ++ [mkCall method args]
                   /\ started t' = started t /\ stopped t' = stopped t)
    /\ (forall h', h' <> h -> transports (world m') !! h' = transports (world m) !! h')
    /\ length (transport_calls (world m')) = S (length (transport_calls (world m)))
    /\ client m' = client m
    /\ stateChans (world m') = stateChans (world m)
    /\ goroutines (world m') = goroutines (world m).
Proof.
  intros Hc Hh Ht.
  destruct (invoke_frame env ctx method args m h Hc Hh) as (r & m' & Hi & Hcl & Hts & Hchs & Hgs).
  exists r, m'. split; [done|]. split.
  { exists (Transport_Invoke method args t). rewrite Hts, list_lookup_alter_eq, Ht. done. }
  split; [intros h' Hne; by rewrite Hts, list_lookup_alter_ne|].
  split; [|done].
  unfold transport_calls. rewrite Hts. by eapply transport_calls_alter.
Qed.

Lemma invoke_submits_once_witness :
  let env := {| now := 0; reply := None; coin := false |} in
  connected (client connected_machine) = true
  /\ connection (client connected_machine) = Some 0%nat
  /\ transports (world connected_machine) !! 0%nat = Some (Transport_Start Transport_new)
  /\ exists r m', invoke env None "ClearCache" [] connected_machine = Returns r m'
                  /\ length (transport_calls (world m')) = 1%nat.
Proof.
  split; [reflexivity|]. split; [reflexivity|]. split; [reflexivity|].
  destruct (invoke_submits_once {| now := 0; reply := None; coin := false |} None
              "ClearCache" [] connected_machine 0%nat (Transport_Start Transport_new)
              eq_refl eq_refl eq_refl) as (r & m' & H1 & _ & _ & H2 & _).
  exists r, m'. split; [exact H1 | exact H2].
Defined.

Lemma errors_Is_wrapped_sentinel sentinel method cause target :
  Unwrap sentinel = None ->
  errors_Is (Errorf_w_s_v sentinel method cause) target = true ->
  target = Errorf_w_s_v sentinel method cause \/ target = sentinel.
Proof.
  intros Hs. unfold Errorf_w_s_v. cbn. case_decide; [by left|].
  intros Hi. right. destruct sentinel; cbn in *; try done; by case_decide.
Qed.

(** X10.  In every state a client can reach, [invoke] returns either a value
    with a nil error, or a nil value with an error of exactly one of three
    kinds: [ErrNotConnected] itself, an error whose [Unwrap] is
    [ErrInvokeFailed], or an error whose [Unwrap] is [ErrConnectionTimeout].
    For the two wrapped kinds [errors.Is] finds the sentinel and nothing else:
    the remote cause and the context's error are part of the message only. *)
Theorem invoke_error_kinds (env : InvokeEnv) (ctx : option Context) (method : string)
    (args : list Any) (m : Machine) :
  reachable m ->
  exists v err m',
    invoke env ctx method args m = Returns (v, err) m'
    /\ match err with
       | None => True
       | Some e =>
           v = ANil
           /\ (e = ErrNotConnected
               \/ exists sentinel,
                    (sentinel = ErrInvokeFailed \/ sentinel = ErrConnectionTimeout)
                    /\ Unwrap e = Some sentinel
                    /\ errors_Is e sentinel = true
                    /\ forall target, errors_Is e target = true ->
                                      target = e \/ target = sentinel)
       end.
Proof.
  intros Hm. apply reachable_connection_first in Hm.
  destruct (connected (client m)) eqn:Hc.
  - destruct (connection (client m)) as [h|] eqn:Hh;
      [|destruct (Hm Hh); congruence].
    destruct (invoke_context_deadline env ctx m) as (used & Hctx & [dl Hdl]).
    destruct (select_deadline env used dl Hdl) as [sel Hsel].
    rewrite (invoke_connected env ctx method args m h (Some used)) by done.
    destruct sel as [res|err].
    + destruct (Error_ res) as [cause|] eqn:He.
      * destruct (invoke_wait_recv_error env used method res cause
                    (submitted method args h m) Hsel He) as [m' Hm'].
        fold (submitted method args h m). rewrite Hm'.
        eexists _, _, _. split; [done|]. split; [done|]. right.
        exists ErrInvokeFailed. split; [by left|]. split; [done|]. split; [done|].
        intros target. by apply errors_Is_wrapped_sentinel.
      * fold (submitted method args h m).
        rewrite (invoke_wait_recv_value env used method res _ Hsel He).
        by eexists _, _, _.
    + fold (submitted method args h m).
      rewrite (invoke_wait_done env used method err _ Hsel).
      eexists _, _, _. split; [done|]. split; [done|]. right.
      exists ErrConnectionTimeout. split; [by right|]. split; [done|]. split; [done|].
      intros target. by apply errors_Is_wrapped_sentinel.
  - rewrite invoke_disconnected by done.
    eexists _, _, _. split; [done|]. split; [done|]. by left.
Qed.

Lemma invoke_error_kinds_witness :
  let env := {| now := 0; reply := None; coin := false |} in
  reachable connected_machine
  /\ exists v err m',
       invoke env None "ClearCache" [] connected_machine = Returns (v, err) m'.
Proof.
  assert (reachable connected_machine) as Hm.
  { exists "http://localhost:5294/hub", [],
      [op_Connect (mkConnectEnv None None); op_state 0%nat ClientConnected].
    reflexivity. }
  split; [exact Hm|].
  destruct (invoke_error_kinds {| now := 0; reply := None; coin := false |} None
              "ClearCache" [] connected_machine Hm) as (v & err & m' & H1 & _).
  exists v, err, m'. exact H1.
Defined.

Lemma plain_context_used env ctx m :
  plain_context ctx ->
  invoke_context env ctx m
  = Returns (Some {| ctx_deadline := Some (now env + timeout (client m));
                     ctx_canceledAt := None |}) m.
Proof.
  destruct ctx as [c|]; unfold plain_context.
  - intros [Hd Hk]. rewrite invoke_context_some, Hd.
    unfold context_WithTimeout, context_WithDeadline. by rewrite Hd, Hk.
  - intros _. reflexivity.
Qed.

(** X11.  With a positive timeout and a context that has no deadline and is
    never cancelled (or a nil context), a connected call behaves as follows.
    An answer that arrives before "instant of the call plus timeout" is what
    the call returns: its value with a nil error, or an [ErrInvokeFailed]
    error when it carries one.  If no answer ever arrives, or the answer
    arrives after that instant, the call returns [ErrConnectionTimeout]
    wrapping "context deadline exceeded". *)
Theorem invoke_default_timeout (env : InvokeEnv) (ctx : option Context) (method : string)
    (args : list Any) (m : Machine) (h : nat) :
  connected (client m) = true ->
  connection (client m) = Some h ->
  plain_context ctx ->
  0 < timeout (client m) ->
  let deadline := now env + timeout (client m) in
  let timed_out :=
    Returns (ANil, Some (Errorf_w_s_v ErrConnectionTimeout method context_DeadlineExceeded))
            (submitted method args h m) in
  (reply env = None -> invoke env ctx method args m = timed_out)
  /\ (forall r res, reply env = Some (r, res) -> deadline < r ->
        invoke env ctx method args m = timed_out)
  /\ (forall r res, reply env = Some (r, res) -> r < deadline -> Error_ res = None ->
        invoke env ctx method args m
        = Returns (Value res, None) (submitted method args h m))
  /\ (forall r res cause, reply env = Some (r, res) -> r < deadline ->
        Error_ res = Some cause ->
        exists m', invoke env ctx method args m
                   = Returns (ANil, Some (Errorf_w_s_v ErrInvokeFailed method cause)) m').
Proof.
  intros Hc Hh Hctx Ht deadline timed_out.
  set (used := {| ctx_deadline := Some deadline; ctx_canceledAt := None |}).
  assert (forall sel, select env used = Some sel ->
            invoke env ctx method args m
            = invoke_wait env (Some used) method (submitted method args h m)) as Hinv.
  { intros _ _. apply invoke_connected; [done..|]. by apply plain_context_used. }
  assert (ctx_done used = Some (deadline, context_DeadlineExceeded)) as Hdone by done.
  split; [|split; [|split]].
  - intros Hr.
    assert (select env used = Some (done context_DeadlineExceeded)) as Hs.
    { unfold select. by rewrite Hr, Hdone. }
    rewrite (Hinv _ Hs). by apply invoke_wait_done.
  - intros r res Hr Hlate.
    assert (select env used = Some (done context_DeadlineExceeded)) as Hs.
    { unfold select. rewrite Hr, Hdone. cbn zeta.
      destruct (Z.ltb_spec (Z.max (now env) r) (Z.max (now env) deadline)); [lia|].
      destruct (Z.ltb_spec (Z.max (now env) deadline) (Z.max (now env) r)); [done|].
      unfold deadline in *. lia. }
    rewrite (Hinv _ Hs). by apply invoke_wait_done.
  - intros r res Hr Hearly He.
    assert (select env used = Some (recv res)) as Hs.
    { unfold select. rewrite Hr, Hdone. cbn zeta.
      destruct (Z.ltb_spec (Z.max (now env) r) (Z.max (now env) deadline)); [done|].
      unfold deadline in *. lia. }
    rewrite (Hinv _ Hs). by apply invoke_wait_recv_value.
  - intros r res cause Hr Hearly He.
    assert (select env used = Some (recv res)) as Hs.
    { unfold select. rewrite Hr, Hdone. cbn zeta.
      destruct (Z.ltb_spec (Z.max (now env) r) (Z.max (now env) deadline)); [done|].
      unfold deadline in *. lia. }
    rewrite (Hinv _ Hs). by apply (invoke_wait_recv_error env used method res).
Qed.

Lemma invoke_default_timeout_witness :
  let res := {| Value := AString "ok"; Error_ := None |} in
  let env := {| now := 0; reply := Some (10, res); coin := false |} in
  connected (client connected_machine) = true
  /\ connection (client connected_machine) = Some 0%nat
  /\ plain_context None
  /\ 0 < timeout (client connected_machine)
  /\ invoke env None "GetServiceStatus" [] connected_machine
     = Returns (AString "ok", None) (submitted "GetServiceStatus" [] 0 connected_machine).
Proof.
  cbv zeta. split; [reflexivity|]. split; [reflexivity|]. split; [exact I|].
  split; [reflexivity|].
  destruct (invoke_default_timeout
              {| now := 0; reply := Some (10, mkInvokeResult (AString "ok") None);
                 coin := false |}
              None "GetServiceStatus" [] connected_machine 0%nat
              eq_refl eq_refl I eq_refl) as (_ & _ & H & _).
  apply (H 10 (mkInvokeResult (AString "ok") None)); reflexivity.
Defined.

(** ** The typed methods *)

Lemma call_error {lib : Library} {T R} (to : JSONType T) (ret : T -> R) (none : R)
    env ctx method args m v e m' :
  invoke env ctx method args m = Returns (v, Some e) m' ->
  call to ret none env ctx method args m = Returns (none, Some e) m'.
Proof. intros Hi. unfold call. go_unfold. by rewrite Hi. Qed.

Lemma call_value {lib : Library} {T R} (to : JSONType T) (ret : T -> R) (none : R)
    env ctx method args m v m' :
  invoke env ctx method args m = Returns (v, None) m' ->
  call to ret none env ctx method args m
  = Returns (match unmarshalResult json_Any to v (zero to) with
             | Err err => (none, Some err)
             | Ok out => (ret out, None)
             end) m'.
Proof.
  intros Hi. unfold call. go_unfold. rewrite Hi. cbn [fst snd].
  by destruct unmarshalResult.
Qed.

(** X12.  When [invoke] fails, every typed method returns that very error,
    not wrapped again, together with a nil result, and [RefreshCache] returns
    the error; the state is the one [invoke] left. *)
Theorem typed_methods_pass_error (lib : Library) (env : InvokeEnv) (ctx : option Context)
    (m m' : Machine) (v : Any) (e : GoError) :
  (invoke env ctx "GetServiceStatus" [] m = Returns (v, Some e) m' ->
   GetServiceStatus env ctx m = Returns (None, Some e) m')
  /\ (invoke env ctx "GetDailyQuests" [] m = Returns (v, Some e) m' ->
      GetDailyQuests env ctx m = Returns (None, Some e) m')
  /\ (forall questID, questID <> "" ->
      invoke env ctx "GetDailyQuest" [AString questID] m = Returns (v, Some e) m' ->
      GetDailyQuest env ctx questID m = Returns (None, Some e) m')
  /\ (invoke env ctx "GetChallengeBundles" [] m = Returns (v, Some e) m' ->
      GetChallengeBundles env ctx m = Returns (None, Some e) m')
  /\ (forall templateID, templateID <> "" ->
      invoke env ctx "GetChallengeBundle" [AString templateID] m = Returns (v, Some e) m' ->
      GetChallengeBundle env ctx templateID m = Returns (None, Some e) m')
  /\ (invoke env ctx "GetChallengeBundleSchedules" [] m = Returns (v, Some e) m' ->
      GetChallengeBundleSchedules env ctx m = Returns (None, Some e) m')
  /\ (invoke env ctx "ClearCache" [] m = Returns (v, Some e) m' ->
      ClearCache env ctx m = Returns (None, Some e) m')
  /\ (invoke env ctx "RefreshCache" [] m = Returns (v, Some e) m' ->
      RefreshCache env ctx m = Returns (Some e) m').
Proof.
  repeat split.
  - apply call_error.
  - apply call_error.
  - intros q Hq. unfold GetDailyQuest. rewrite eqb_nonempty by done. apply call_error.
  - apply call_error.
  - intros t Ht. unfold GetChallengeBundle. rewrite eqb_nonempty by done. apply call_error.
  - apply call_error.
  - apply call_error.
  - intros Hi. unfold RefreshCache. go_unfold. by rewrite Hi.
Qed.

Lemma typed_methods_pass_error_witness :
  let env := {| now := 0; reply := None; coin := false |} in
  let m := start "http://localhost:5294/hub" [] in
  invoke env None "ClearCache" [] m = Returns (ANil, Some ErrNotConnected) m
  /\ ClearCache (lib := no_conversions) env None m = Returns (None, Some ErrNotConnected) m.
Proof.
  cbv zeta. split; [reflexivity|].
  destruct (typed_methods_pass_error no_conversions
              {| now := 0; reply := None; coin := false |} None
              (start "http://localhost:5294/hub" []) (start "http://localhost:5294/hub" [])
              ANil ErrNotConnected) as (_ & _ & _ & _ & _ & _ & H & _).
  apply H. reflexivity.
Defined.

(** X13.  When the hub answers a call with a nil value (JSON null), the typed
    methods succeed: those returning a pointer return a pointer to the zero
    value of their struct, those returning a map or a slice return nil; the
    error is nil. *)
Theorem typed_methods_null_result (lib : Library) (env : InvokeEnv) (ctx : option Context)
    (m m' : Machine) :
  (invoke env ctx "GetServiceStatus" [] m = Returns (ANil, None) m' ->
   GetServiceStatus env ctx m
   = Returns (Some (mkServiceStatus false "" Time_zero), None) m')
  /\ (invoke env ctx "GetDailyQuests" [] m = Returns (ANil, None) m' ->
      GetDailyQuests env ctx m = Returns (None, None) m')
  /\ (forall questID, questID <> "" ->
      invoke env ctx "GetDailyQuest" [AString questID] m = Returns (ANil, None) m' ->
      GetDailyQuest env ctx questID m = Returns (Some (mkBaseQuest None None 0), None) m')
  /\ (invoke env ctx "GetChallengeBundles" [] m = Returns (ANil, None) m' ->
      GetChallengeBundles env ctx m = Returns (None, None) m')
  /\ (forall templateID, templateID <> "" ->
      invoke env ctx "GetChallengeBundle" [AString templateID] m = Returns (ANil, None) m' ->
      GetChallengeBundle env ctx templateID m
      = Returns (Some (mkAthenaChallengeBundle "" "" None 0 "" None), None) m')
  /\ (invoke env ctx "GetChallengeBundleSchedules" [] m = Returns (ANil, None) m' ->
      GetChallengeBundleSchedules env ctx m = Returns (None, None) m')
  /\ (invoke env ctx "ClearCache" [] m = Returns (ANil, None) m' ->
      ClearCache env ctx m
      = Returns (Some (mkCacheResult false "" 0 None Time_zero), None) m').
Proof.
  repeat split.
  - intros Hi. unfold GetServiceStatus. by rewrite (call_value _ _ _ _ _ _ _ _ _ _ Hi).
  - intros Hi. unfold GetDailyQuests. by rewrite (call_value _ _ _ _ _ _ _ _ _ _ Hi).
  - intros q Hq Hi. unfold GetDailyQuest. rewrite eqb_nonempty by done.
    by rewrite (call_value _ _ _ _ _ _ _ _ _ _ Hi).
  - intros Hi. unfold GetChallengeBundles. by rewrite (call_value _ _ _ _ _ _ _ _ _ _ Hi).
  - intros t Ht Hi. unfold GetChallengeBundle. rewrite eqb_nonempty by done.
    by rewrite (call_value _ _ _ _ _ _ _ _ _ _ Hi).
  - intros Hi. unfold GetChallengeBundleSchedules.
    by rewrite (call_value _ _ _ _ _ _ _ _ _ _ Hi).
  - intros Hi. unfold ClearCache. by rewrite (call_value _ _ _ _ _ _ _ _ _ _ Hi).
Qed.

Lemma typed_methods_null_result_witness :
  let env := {| now := 0; reply := Some (1, mkInvokeResult ANil None); coin := false |} in
  invoke env None "ClearCache" [] connected_machine
  = Returns (ANil, None) (submitted "ClearCache" [] 0 connected_machine)
  /\ ClearCache (lib := no_conversions) env None connected_machine
     = Returns (Some (mkCacheResult false "" 0 None Time_zero), None)
               (submitted "ClearCache" [] 0 connected_machine).
Proof.
  cbv zeta. split; [reflexivity|].
  destruct (typed_methods_null_result no_conversions
              {| now := 0; reply := Some (1, mkInvokeResult ANil None); coin := false |}
              None connected_machine (submitted "ClearCache" [] 0 connected_machine))
    as (_ & _ & _ & _ & _ & _ & H).
  apply H. reflexivity.
Defined.

(** ** Results that do not decode *)

(** The answer of a typed method whose call returned the undecodable [v]. *)
Ltac decode_fails Hi Hv v :=
  rewrite (call_value _ _ _ _ _ _ _ _ _ _ Hi);
  destruct Hv as [Hs|[? ->]];
  [ destruct v; try done; eexists; (split; [reflexivity|]); left; (split; [exact I|]);
    eexists; reflexivity
  | eexists; (split; [reflexivity|]); right; eexists; split; reflexivity ].

(** X14.  A result that cannot be turned into the expected type makes the
    typed method fail with a nil result and an error that is none of the
    package's sentinels.  When the hub answers with a bool, a string or an
    integer where a struct, a slice or a map is expected, the error wraps the
    decoder's error behind "failed to unmarshal result: "; when the answer is
    a value encoding/json cannot write, it wraps the encoder's error behind
    "failed to marshal result: ".  [RefreshCache] never looks at the value and
    succeeds. *)
Theorem typed_methods_decode_failure (lib : Library) (env : InvokeEnv)
    (ctx : option Context) (m m' : Machine) (v : Any) :
  undecodable v ->
  (invoke env ctx "GetServiceStatus" [] m = Returns (v, None) m' ->
   exists e, GetServiceStatus env ctx m = Returns (None, Some e) m' /\ decode_failure v e)
  /\ (invoke env ctx "GetDailyQuests" [] m = Returns (v, None) m' ->
      exists e, GetDailyQuests env ctx m = Returns (None, Some e) m' /\ decode_failure v e)
  /\ (forall questID, questID <> "" ->
      invoke env ctx "GetDailyQuest" [AString questID] m = Returns (v, None) m' ->
      exists e, GetDailyQuest env ctx questID m = Returns (None, Some e) m'
                /\ decode_failure v e)
  /\ (invoke env ctx "GetChallengeBundles" [] m = Returns (v, None) m' ->
      exists e, GetChallengeBundles env ctx m = Returns (None, Some e) m'
                /\ decode_failure v e)
  /\ (forall templateID, templateID <> "" ->
      invoke env ctx "GetChallengeBundle" [AString templateID] m = Returns (v, None) m' ->
      exists e, GetChallengeBundle env ctx templateID m = Returns (None, Some e) m'
                /\ decode_failure v e)
  /\ (invoke env ctx "GetChallengeBundleSchedules" [] m = Returns (v, None) m' ->
      exists e, GetChallengeBundleSchedules env ctx m = Returns (None, Some e) m'
                /\ decode_failure v e)
  /\ (invoke env ctx "ClearCache" [] m = Returns (v, None) m' ->
      exists e, ClearCache env ctx m = Returns (None, Some e) m' /\ decode_failure v e)
  /\ (invoke env ctx "RefreshCache" [] m = Returns (v, None) m' ->
      RefreshCache env ctx m = Returns None m').
Proof.
  intros Hv. repeat split.
  - intros Hi. unfold GetServiceStatus. decode_fails Hi Hv v.
  - intros Hi. unfold GetDailyQuests. decode_fails Hi Hv v.
  - intros q Hq Hi. unfold GetDailyQuest. rewrite eqb_nonempty by done.
    decode_fails Hi Hv v.
  - intros Hi. unfold GetChallengeBundles. decode_fails Hi Hv v.
  - intros t Ht Hi. unfold GetChallengeBundle. rewrite eqb_nonempty by done.
    decode_fails Hi Hv v.
  - intros Hi. unfold GetChallengeBundleSchedules. decode_fails Hi Hv v.
  - intros Hi. unfold ClearCache. decode_fails Hi Hv v.
  - intros Hi. unfold RefreshCache. go_unfold. by rewrite Hi.
Qed.

Lemma typed_methods_decode_failure_witness :
  let env := {| now := 0; reply := Some (1, mkInvokeResult (ABool true) None);
                coin := false |} in
  undecodable (ABool true)
  /\ exists e, ClearCache (lib := no_conversions) env None connected_machine
               = Returns (None, Some e) (submitted "ClearCache" [] 0 connected_machine)
               /\ decode_failure (ABool true) e.
Proof.
  cbv zeta. assert (undecodable (ABool true)) as Hv by (left; exact I).
  split; [exact Hv|].
  destruct (typed_methods_decode_failure no_conversions
              {| now := 0; reply := Some (1, mkInvokeResult (ABool true) None);
                 coin := false |}
              None connected_machine (submitted "ClearCache" [] 0 connected_machine)
              (ABool true) Hv) as (_ & _ & _ & _ & _ & _ & H & _).
  apply H. reflexivity.
Defined.

(** ** Values decoded into interface{} *)

Lemma JSON_ind_nested (P : JSON -> Prop) :
  P JNull -> (forall b, P (JBool b)) -> (forall lit, P (JNumber lit)) ->
  (forall s, P (JString s)) ->
  (forall xs, Forall P xs -> P (JArray xs)) ->
  (forall members, Forall (fun kj => P kj.2) members -> P (JObject members)) ->
  forall j, P j.
Proof.
  intros Hnull Hbool Hnumber Hstring Harray Hobject.
  fix IH 1.
  intros [ |b|lit|s|xs|members];
    [apply Hnull|apply Hbool|apply Hnumber|apply Hstring| | ].
  - apply Harray. induction xs as [|x xs IHxs]; constructor; [apply IH|exact IHxs].
  - apply Hobject.
    induction members as [|[k x] members IHm]; constructor; [apply IH|exact IHm].
Qed.

Lemma map_insert_forallb {V} (P : string * V -> bool) k v (m : list (string * V)) :
  P (k, v) = true -> forallb P m = true -> forallb P (map_insert k v m) = true.
Proof.
  intros Hkv. induction m as [|[k' v'] m IH]; cbn; [by rewrite Hkv|].
  intros [H1 H2]%andb_true_iff.
  destruct (String.compare k k'); cbn; rewrite ?Hkv, ?H1, ?H2; try done.
  by rewrite IH.
Qed.

Lemma unmarshal_Any_decoded {lib : Library} (j : JSON) (v : Any) :
  unmarshal_Any j = Ok v -> Any_decoded v = true.
Proof.
  revert v. induction j as [ |b|lit|s|xs IH|members IH] using JSON_ind_nested;
    intros v; cbn.
  - by intros [= <-].
  - by intros [= <-].
  - destruct (ParseFloat lit); [|done]. by intros [= <-].
  - by intros [= <-].
  - destruct (mapM unmarshal_Any xs) as [vs|] eqn:Hvs; [|done]. cbn. intros [= <-]. cbn.
    revert vs Hvs. induction IH as [|x xs Hx _ IHxs]; intros vs; cbn.
    + by intros [= <-].
    + destruct (unmarshal_Any x) as [y|] eqn:Hy; [|done]. cbn.
      destruct (mapM unmarshal_Any xs) as [ys|]; [|done]. cbn. intros [= <-]. cbn.
      by rewrite (Hx y), (IHxs ys).
  - destruct (Result_foldl _ [] members) as [kvs|] eqn:Hkvs; [|done]. cbn.
    intros [= <-]. cbn.
    assert (forall acc, forallb (fun kv : string * Any => Any_decoded kv.2) acc = true ->
              Result_foldl (fun m kj => v ← unmarshal_Any kj.2;
                                        mret (map_insert kj.1 v m)) acc members = Ok kvs ->
              forallb (fun kv : string * Any => Any_decoded kv.2) kvs = true) as Hgen.
    { clear Hkvs. induction IH as [|[k x] members Hx _ IHm]; intros acc Hacc; cbn.
      - by intros [= <-].
      - destruct (unmarshal_Any x) as [y|] eqn:Hy; [|done]. cbn.
        apply IHm. apply map_insert_forallb; [|done]. by apply Hx. }
    by apply (Hgen []).
Qed.

(** X15.  Whatever the hub answered, a value that [unmarshalResult] stores
    in an [interface{}] (such as the values of a quest's objectives and
    rewards) holds no Go [int]: every number has become a float64, at every
    depth of slices and maps.  An integer 1 sent as a result therefore never
    comes back as the integer 1. *)
Theorem unmarshalResult_no_int (lib : Library) (result v : Any) (n : Z) :
  (unmarshalResult json_Any json_Any result ANil = Ok v -> Any_decoded v = true)
  /\ unmarshalResult json_Any json_Any (AInt n) ANil <> Ok (AInt n)
  /\ (forall m kvs, unmarshalResult json_Any (json_map json_Any) result m = Ok (Some kvs) ->
        from_option (forallb (fun kv => Any_decoded kv.2)) true m = true ->
        forallb (fun kv => Any_decoded kv.2) kvs = true).
Proof.
  split; [|split].
  - unfold unmarshalResult. destruct (marshal json_Any result) as [j|]; [|done].
    destruct (unmarshal json_Any j ANil) as [out|] eqn:Hu; [|done].
    intros [= <-]. by apply (unmarshal_Any_decoded j).
  - unfold unmarshalResult.
    change (marshal json_Any (AInt n)) with (Ok (A := JSON) (JNumber (FormatInt n))).
    cbn -[FormatInt]. unfold json_Any. rewrite unmarshal_mk.
    cbn -[FormatInt]. by destruct (ParseFloat (FormatInt n)).
  - intros m kvs. unfold unmarshalResult.
    destruct (marshal json_Any result) as [j|]; [|done].
    destruct (unmarshal (json_map json_Any) j m) as [out|] eqn:Hu; [|done].
    intros [= ->] Hm. revert Hu.
    destruct j as [ | | | | |members]; try done.
    unfold json_map. rewrite unmarshal_mk.
    destruct (Result_foldl _ (default [] m) members) as [r|] eqn:Hr; [|done].
    cbn. intros [= <-].
    assert (forallb (fun kv : string * Any => Any_decoded kv.2) (default [] m) = true)
      as Hacc by (by destruct m).
    revert Hr Hacc. generalize (default [] m). clear Hm.
    induction members as [|[k x] members IHm]; intros acc; cbn.
    + by intros [= <-].
    + change (unmarshal json_Any x ANil) with (unmarshal_Any x).
      destruct (unmarshal_Any x) as [y|] eqn:Hy; [|done]. cbn.
      intros Hr Hacc. apply (IHm _ Hr). apply map_insert_forallb; [|done].
      by apply (unmarshal_Any_decoded x).
Qed.

Lemma unmarshalResult_no_int_witness :
  unmarshalResult (json_Any (lib := listed_conversions))
                  (json_Any (lib := listed_conversions)) (AInt 1) ANil
  = Ok (AFloat64 float64_1)
  /\ Any_decoded (AFloat64 float64_1) = true.
Proof.
  split; [reflexivity|].
  exact (proj1 (unmarshalResult_no_int listed_conversions (AInt 1) (AFloat64 float64_1) 1)
               eq_refl).
Defined.


(** X16.  A value of the shape [Unmarshal] itself produces (nil, bool,
    float64, string, slices and maps of these), with strings and keys in valid
    UTF-8 and floats that their own literal reads back, passes through
    [unmarshalResult] into an [interface{}] unchanged. *)
Theorem unmarshalResult_Any_unchanged (lib : Library) (v : Any) :
  Any_exact v -> unmarshalResult json_Any json_Any v ANil = Ok v.
Proof.
  intros Hv. destruct (Any_exact_roundtrip v Hv) as (j & Hm & Hu).
  unfold unmarshalResult.
  change (marshal json_Any v) with (marshal_Any v). rewrite Hm.
  change (unmarshal json_Any j ANil) with (unmarshal_Any j). by rewrite Hu.
Qed.

Lemma unmarshalResult_Any_unchanged_witness :
  let v := AMap [("count", AFloat64 float64_1);
                 ("objectives", AMap [("kill", AFloat64 float64_1)]);
                 ("rewards", AMap [("xp", AFloat64 float64_5)])] in
  Any_exact (lib := listed_conversions) v
  /\ unmarshalResult (json_Any (lib := listed_conversions))
                     (json_Any (lib := listed_conversions)) v ANil = Ok v.
Proof.
  cbv zeta.
  assert (float64_exact (lib := listed_conversions) float64_1) as H1
    by (exists "1"; split; reflexivity).
  assert (float64_exact (lib := listed_conversions) float64_5) as H5
    by (exists "5"; split; reflexivity).
  match goal with |- ?A /\ _ => assert A as Hv end.
  { cbn. repeat split; (reflexivity || exact H1 || exact H5). }
  split; [exact Hv|].
  exact (unmarshalResult_Any_unchanged listed_conversions _ Hv).
Defined.

(** ** runOperations *)




Lemma call_returns_frame {lib : Library} {T R} (to : JSONType T) (ret : T -> R) (none : R)
    env ctx method args m :
  connection_first m ->
  exists r e m', call to ret none env ctx method args m = Returns (r, e) m'
                 /\ connection_first m'
                 /\ client m' = client m
                 /\ (e = None -> exists out, r = ret out).
Proof.
  intros Hm.
  destruct (invoke_returns env ctx method args m Hm) as ([v e] & m' & Hi & Hcl & Hch).
  assert (connection_first m') as Hm'.
  { unfold connection_first in *. by rewrite Hcl, Hch. }
  destruct e as [e|].
  - rewrite (call_error _ _ _ _ _ _ _ _ _ _ _ Hi).
    eexists _, _, _. split; [reflexivity|]. split; [done|]. split; [done|]. intros [=].
  - rewrite (call_value _ _ _ _ _ _ _ _ _ _ Hi).
    destruct unmarshalResult as [out|err];
      eexists _, _, _; (split; [reflexivity|]); (split; [done|]); (split; [done|]).
    + intros _. by exists out.
    + intros [=].
Qed.

(** X20.  On a client in any reachable state [runOperations] returns: none of
    its five calls blocks, and the [status] and [clearResult] pointers it
    dereferences are never nil when the error next to them is nil.  It leaves
    every field of the client as it found it. *)
Theorem runOperations_returns (lib : Library) (env : RunEnv) (m : Machine) :
  reachable m ->
  exists err out m',
    runOperations env m = Returns (err, out) m' /\ client m' = client m.
Proof.
  intros Hm. apply reachable_connection_first in Hm.
  unfold runOperations, GetServiceStatus, ClearCache, GetDailyQuests,
    GetChallengeBundles, GetChallengeBundleSchedules.
  go_unfold.
  destruct (call_returns_frame json_ServiceStatus Some None (at_status env)
              (call_context (at_status env) (10 * time_Second)) "GetServiceStatus" [] m Hm)
    as (r1 & e1 & m1 & -> & Hm1 & Hc1 & Hr1).
  destruct e1 as [e1|]; [destruct r1; cbn; eauto 10|]. destruct (Hr1 eq_refl) as [status ->].
  destruct (call_returns_frame json_CacheResult Some None (at_clear env)
              (call_context (at_clear env) (15 * time_Second)) "ClearCache" [] m1 Hm1)
    as (r2 & e2 & m2 & -> & Hm2 & Hc2 & Hr2).
  rewrite Hc1 in Hc2.
  destruct e2 as [e2|]; [destruct r2; cbn; eauto 10|]. destruct (Hr2 eq_refl) as [clearResult ->].
  destruct (call_returns_frame (json_map json_BaseQuest) id None (at_quests env)
              (call_context (at_quests env) (15 * time_Second)) "GetDailyQuests" [] m2 Hm2)
    as (r3 & e3 & m3 & -> & Hm3 & Hc3 & _).
  rewrite Hc2 in Hc3.
  destruct e3 as [e3|]; [destruct r3; cbn; eauto 10|].
  destruct (writeJSONFile env (json_map json_BaseQuest) _ r3 _) as [[w1|] out1];
    [eauto 10|].
  destruct (call_returns_frame (json_slice json_AthenaChallengeBundle) id None (at_bundles env)
              (call_context (at_bundles env) (30 * time_Second)) "GetChallengeBundles" []
              m3 Hm3)
    as (r4 & e4 & m4 & -> & Hm4 & Hc4 & _).
  rewrite Hc3 in Hc4.
  destruct e4 as [e4|]; [destruct r4; cbn; eauto 10|].
  destruct (writeJSONFile env (json_slice json_AthenaChallengeBundle) _ r4 _)
    as [[w2|] out2]; [eauto 10|].
  destruct (call_returns_frame (json_slice json_ChallengeBundleSchedule) id None
              (at_schedules env) (call_context (at_schedules env) (30 * time_Second))
              "GetChallengeBundleSchedules" [] m4 Hm4)
    as (r5 & e5 & m5 & -> & Hm5 & Hc5 & _).
  rewrite Hc4 in Hc5.
  destruct e5 as [e5|]; [destruct r5; cbn; eauto 10|].
  destruct (writeJSONFile env (json_slice json_ChallengeBundleSchedule) _ r5 _)
    as [[w3|] out3]; eauto 10.
Qed.

Lemma runOperations_returns_witness :
  let at_ := mkInvokeEnv 0 None false in
  let env := mkRunEnv at_ at_ at_ at_ at_ (fun _ => None) in
  reachable connected_machine
  /\ exists err out m',
       runOperations (lib := no_conversions) env connected_machine = Returns (err, out) m'
       /\ client m' = client connected_machine.
Proof.
  cbv zeta.
  assert (reachable connected_machine) as Hm.
  { exists "http://localhost:5294/hub", [],
      [op_Connect (mkConnectEnv None None); op_state 0%nat ClientConnected].
    reflexivity. }
  split; [exact Hm|].
  exact (runOperations_returns no_conversions _ connected_machine Hm).
Defined.

(** ** Nothing is ever taken back *)

Lemma extends_refl m : extends_ m m.
Proof. unfold extends_. repeat split; done. Qed.

Lemma extends_trans m1 m2 m3 : extends_ m1 m2 -> extends_ m2 m3 -> extends_ m1 m3.
Proof.
  intros (H1 & H2 & H3 & H4 & H5 & H6 & H7 & H8) (K1 & K2 & K3 & K4 & K5 & K6 & K7 & K8).
  unfold extends_. repeat split; try congruence; try (by etrans); lia.
Qed.

Lemma invoke_wait_extends env ctx method m :
  is_Some (ctx_deadline ctx) ->
  exists r m', invoke_wait env (Some ctx) method m = Returns r m'
               /\ client m' = client m
               /\ transports (world m') = transports (world m)
               /\ stateChans (world m') = stateChans (world m)
               /\ goroutines (world m') = goroutines (world m)
               /\ logged (world m) `prefix_of` logged (world m').
Proof.
  intros [d Hd]. destruct (select_deadline env ctx d Hd) as [sel Hsel].
  unfold invoke_wait. rewrite Hsel.
  destruct sel as [res|err]; [destruct (Error_ res)|]; go_run;
    eexists _, _; (split; [reflexivity|]); cbn; repeat (split; [done|]);
    try done; by apply prefix_app_r.
Qed.

Lemma step_extends op m m' :
  connection_first m -> step op m = Returns tt m' -> extends_ m m'.
Proof.
  intros Hfirst Hs.
  destruct op as [env| |hd|hd|env ctx method args|stateCh state|status]; cbn in Hs.
  - revert Hs. go_unfold.
    destruct (connected (client m)) eqn:Hc.
    { rewrite Connect_connected by done. intros [= <-]. apply extends_refl. }
    destruct (NewHTTPConnection_err env) as [e|] eqn:H1;
      [|destruct (NewClient_err env) as [e|] eqn:H2].
    + unfold Connect. go_run. rewrite Hc, H1. cbn. intros [= <-].
      unfold extends_. cbn. repeat split; try done. by apply prefix_app_r.
    + unfold Connect. go_run. rewrite Hc, H1, H2. cbn. intros [= <-].
      unfold extends_. cbn. repeat split; try done. by apply prefix_app_r.
    + rewrite Connect_success_eq by done. intros [= <-].
      unfold extends_. cbn. rewrite length_alter, !length_app.
      repeat split; try done; try (by apply prefix_app_r); lia.
  - revert Hs. go_unfold. rewrite Disconnect_eq.
    destruct (connection (client m)) as [h|]; intros [= <-];
      unfold extends_; cbn; rewrite ?length_alter.
    + repeat split; try done; try (by apply prefix_app_r).
      destruct (observeCancel (client m)); by rewrite ?length_alter.
    + repeat split; done.
  - rewrite OnReady_eq in Hs. injection Hs as <-.
    unfold extends_. cbn. repeat split; try done. by apply prefix_app_r.
  - rewrite OnDisconnect_eq in Hs. injection Hs as <-.
    unfold extends_. cbn. repeat split; try done. by apply prefix_app_r.
  - revert Hs. go_unfold.
    destruct (connected (client m)) eqn:Hc.
    + destruct (connection (client m)) as [h|] eqn:Hh;
        [|destruct (Hfirst Hh); congruence].
      destruct (invoke_context_deadline env ctx m) as (ctx' & Hctx & Hd).
      rewrite (invoke_connected _ _ _ _ _ h (Some ctx')) by done.
      match goal with |- context [invoke_wait _ _ _ ?m1] =>
        destruct (invoke_wait_extends env ctx' method m1 Hd)
          as (r & m2 & -> & Hcl & Hts & Hchs & Hgs & Hlg) end.
      intros [= <-]. unfold extends_. rewrite Hcl, Hts, Hchs, Hgs. cbn in *.
      rewrite length_alter. repeat split; done.
    + rewrite invoke_disconnected by done. intros [= <-]. apply extends_refl.
  - revert Hs. unfold getWorld. go_unfold.
    destruct (is_open (world m) stateCh) eqn:Hopen;
      [|intros [= <-]; apply extends_refl].
    destruct (connection (client m)) as [h|] eqn:Hh.
    + destruct state.
      * intros [= <-]. apply extends_refl.
      * intros [= <-]. apply extends_refl.
      * cbn. intros [= <-]. unfold extends_. cbn.
        repeat split; try done. by apply prefix_app_r.
      * rewrite (watchStates_body_closed_eq _ h) by done. intros [= <-].
        unfold extends_. cbn. repeat split; try done; by apply prefix_app_r.
    + destruct (Hfirst Hh) as [_ Hch]. by rewrite is_open_nil in Hopen.
  - rewrite Ready_eq in Hs. injection Hs as <-.
    unfold extends_. cbn. repeat split; try done; by apply prefix_app_r.
Qed.

(** X18.  From any state a client can reach, whatever sequence of events
    follows leaves the URL and the timeout as they were and only ever extends:
    handlers are never unregistered or reordered, and goroutines, log entries,
    transports and state channels are never removed. *)
Theorem run_extends (ops : list Op) (m m' : Machine) :
  reachable m -> run ops m = Returns tt m' -> extends_ m m'.
Proof.
  intros Hm. apply reachable_connection_first in Hm.
  revert m Hm. induction ops as [|op ops IH]; intros m Hm.
  - cbn. go_run. intros [= <-]. apply extends_refl.
  - rewrite run_cons. destruct (step op m) as [[] m1| |] eqn:Hs; try done.
    intros Hr. eapply extends_trans; [by eapply step_extends|].
    apply IH; [|done]. by eapply step_connection_first.
Qed.

Lemma run_extends_witness :
  let m := start "http://localhost:5294/hub" [] in
  let ops := [op_OnDisconnect 7%nat; op_Connect (mkConnectEnv None None); op_Disconnect] in
  reachable m
  /\ exists m', run ops m = Returns tt m' /\ extends_ m m'.
Proof.
  cbv zeta.
  assert (reachable (start "http://localhost:5294/hub" [])) as Hm
    by (exists "http://localhost:5294/hub", [], []; reflexivity).
  split; [exact Hm|]. eexists. split; [vm_compute; reflexivity|].
  apply (run_extends
           [op_OnDisconnect 7%nat; op_Connect (mkConnectEnv None None); op_Disconnect]
           (start "http://localhost:5294/hub" []) _ Hm).
  vm_compute. reflexivity.
Defined.

(** ** One transport at a time *)











Lemma active_Invoke method args t : active (Transport_Invoke method args t) = active t.
Proof. reflexivity. Qed.








